(** * ffmpegx: command model, process runner and frame sampler

    A shallow embedding of the TypeScript sources

      - [src/FfmpegCommand.ts]        (module [Command])
      - [packages/core/src/execute.ts] ([parseProgress], [FfmpegX.execute],
                                        module [Runner])
      - the orchestrator [executeFfmpeg] and the [VideoFrameExtractor]
        (module [Sampler])

    JavaScript strings are modelled as [string], byte buffers as
    [list Byte.byte], and a field of type [string | null] as
    [option string] together with the truthiness test JavaScript applies to
    it.  JavaScript numbers are modelled by exact rationals ([Q]); the
    rounding of IEEE doubles is not part of the model. *)

From Stdlib Require Import List String Ascii ZArith QArith Qround Qminmax.
From Stdlib Require Import Bool Lia Permutation DecimalString Finite.
Import ListNotations.

Local Open Scope string_scope.
Local Open Scope list_scope.

(** ** Errors

    The code throws plain [Error] objects; the constructors below are the
    error values the sources construct, and [message] is their text.  The
    specification's taxonomy is recovered by [kind]. *)

Inductive Error : Type :=
| InputNotSpecified
| OutputFormatRequired
| SpawnFailed
| ExitedWithCode (code : option Z)
| ProcessError (msg : string)
| CallbackError (msg : string)
| NotInitialized.

Inductive ErrorKind : Type :=
| ConfigurationError
| SpawnError
| ExecutionError
| CallerError
| NotInitializedError.

Definition kind (e : Error) : ErrorKind :=
  match e with
  | InputNotSpecified | OutputFormatRequired => ConfigurationError
  | SpawnFailed | ProcessError _ => SpawnError
  | ExitedWithCode _ => ExecutionError
  | CallbackError _ => CallerError
  | NotInitialized => NotInitializedError
  end.

(** [String(n)] for an integral number. *)
Definition string_of_Z (z : Z) : string :=
  NilZero.string_of_int (Z.to_int z).

Definition message (e : Error) : string :=
  match e with
  | InputNotSpecified =>
      "Input file not specified. Please call .setInput() or use a command builder to configure."
  | OutputFormatRequired =>
      "Output format is required when no output file is specified."
  | SpawnFailed => "Failed to spawn ffmpeg process"
  | ExitedWithCode (Some c) => "ffmpeg exited with code " ++ string_of_Z c
  | ExitedWithCode None => "ffmpeg exited with code null"
  | ProcessError m => m
  | CallbackError m => m
  | NotInitialized =>
      "Extractor not initialized. Call the async initialize() method first."
  end.

(** A computation that either throws or returns. *)
Definition Result (A : Type) : Type := (Error + A)%type.

(** ** JavaScript string helpers *)

(** The test [if (f)] on a [string | null | undefined]: the absent value
    and the empty string are falsy. *)
Definition truthy (f : option string) : bool :=
  match f with
  | None => false
  | Some s => negb (s =? "")
  end.

(** The string held by a field already tested truthy. *)
Definition pathOf (f : option string) : string :=
  match f with
  | Some s => s
  | None => ""
  end.

(** [s.startsWith(p)] *)
Definition startsWith (s p : string) : bool := String.prefix p s.

(** [s.includes(c)] for a one-character [c]. *)
Fixpoint includes (s : string) (c : ascii) : bool :=
  match s with
  | EmptyString => false
  | String d r => Ascii.eqb d c || includes r c
  end.

(** [s.split(c)] for a one-character separator: the segments between the
    separators, in order; never the empty list. *)
Fixpoint split (s : string) (sep : ascii) : list string :=
  match s with
  | EmptyString => [EmptyString]
  | String c r =>
      if Ascii.eqb c sep then EmptyString :: split r sep
      else match split r sep with
           | h :: t => String c h :: t
           | [] => [String c EmptyString]
           end
  end.

(** White space as [String.prototype.trim] sees it, among the code units
    below 256: TAB, LF, VT, FF, CR, SP and NBSP. *)
Definition isSpace (c : ascii) : bool :=
  let n := nat_of_ascii c in
  ((9 <=? n) && (n <=? 13) || (n =? 32) || (n =? 160))%nat.

Fixpoint trimStart (s : string) : string :=
  match s with
  | EmptyString => EmptyString
  | String c r => if isSpace c then trimStart r else s
  end.

Fixpoint trimEnd (s : string) : string :=
  match s with
  | EmptyString => EmptyString
  | String c r =>
      match trimEnd r with
      | EmptyString => if isSpace c then EmptyString else String c EmptyString
      | r' => String c r'
      end
  end.

Definition trim (s : string) : string := trimEnd (trimStart s).

(** ** JavaScript numbers as parsed from text *)

Inductive number : Type :=
| NaN
| Fin (q : Q)
| Infinity (negative : bool).

Definition isDigit (c : ascii) : bool :=
  let n := nat_of_ascii c in ((48 <=? n) && (n <=? 57))%nat.

Definition digitVal (c : ascii) : Z := Z.of_nat (nat_of_ascii c) - 48.

(** The longest prefix of decimal digits: its value read after [acc], how
    many digits it has, and what follows it. *)
Fixpoint takeDigits (s : string) (acc : Z) (count : nat)
  : Z * nat * string :=
  match s with
  | String c r =>
      if isDigit c then takeDigits r (10 * acc + digitVal c) (S count)
      else (acc, count, s)
  | EmptyString => (acc, count, s)
  end.

(** An optional sign: whether it is a minus, and what follows. *)
Definition takeSign (s : string) : bool * string :=
  match s with
  | String "-" r => (true, r)
  | String "+" r => (false, r)
  | _ => (false, s)
  end.

Definition signed (negative : bool) (z : Z) : Z :=
  if negative then (- z)%Z else z.

(** [parseInt(s, 10)]: leading white space, a sign, then the longest run of
    digits; [NaN] when there is no digit. *)
Definition parseInt (s : string) : number :=
  let (negative, r) := takeSign (trimStart s) in
  match takeDigits r 0 0 with
  | (_, O, _) => NaN
  | (v, _, _) => Fin (inject_Z (signed negative v))
  end.

(** An exponent part [e[+-]digits], if the text starts with one. *)
Definition takeExponent (s : string) : Z :=
  match s with
  | String c r =>
      if Ascii.eqb c "e" || Ascii.eqb c "E" then
        let (negative, r') := takeSign r in
        match takeDigits r' 0 0 with
        | (_, O, _) => 0%Z
        | (v, _, _) => signed negative v
        end
      else 0%Z
  | EmptyString => 0%Z
  end.

(** [parseFloat(s)]: the longest prefix that is a decimal literal, as the
    exact rational it denotes. *)
Definition parseFloat (s : string) : number :=
  let (negative, r) := takeSign (trimStart s) in
  if String.prefix "Infinity" r then Infinity negative
  else
    let '(ip, ni, r1) := takeDigits r 0 0 in
    let '(m, nf, r2) :=
      match r1 with
      | String "." r' => takeDigits r' ip 0
      | _ => (ip, O, r1)
      end in
    match ni, nf with
    | O, O => NaN
    | _, _ =>
        Fin (Qred (inject_Z (signed negative m)
                   * Qpower 10 (takeExponent r2 - Z.of_nat nf)))
    end.

(** ** Command model ([FfmpegCommand.ts]) *)

Module Command.

Record FfmpegCommand : Type := mkCommand {
  globalArgs : list string;
  inputArgs : list string;
  outputArgs : list string;
  inputFile : option string;
  outputFile : option string
}.

(** [new FfmpegCommand()] *)
Definition empty : FfmpegCommand :=
  mkCommand [] [] [] None None.

(** An option value [value?: string | number]; numbers are the integral
    ones, whose [String(..)] is their decimal numeral. *)
Inductive OptValue : Type :=
| VStr (s : string)
| VNum (n : Z).

Definition String_ (v : OptValue) : string :=
  match v with
  | VStr s => s
  | VNum n => string_of_Z n
  end.

(** [args.push(key); if (value !== undefined) args.push(String(value))] *)
Definition pushOption (args : list string) (key : string)
           (value : option OptValue) : list string :=
  match value with
  | None => args ++ [key]
  | Some v => (args ++ [key]) ++ [String_ v]
  end.

Definition addGlobalOption (key : string) (value : option OptValue)
           (c : FfmpegCommand) : FfmpegCommand :=
  mkCommand (pushOption (globalArgs c) key value) (inputArgs c)
            (outputArgs c) (inputFile c) (outputFile c).

Definition addInputOption (key : string) (value : option OptValue)
           (c : FfmpegCommand) : FfmpegCommand :=
  mkCommand (globalArgs c) (pushOption (inputArgs c) key value)
            (outputArgs c) (inputFile c) (outputFile c).

Definition addOutputOption (key : string) (value : option OptValue)
           (c : FfmpegCommand) : FfmpegCommand :=
  mkCommand (globalArgs c) (inputArgs c)
            (pushOption (outputArgs c) key value) (inputFile c)
            (outputFile c).

Definition input (file : string) (c : FfmpegCommand) : FfmpegCommand :=
  mkCommand (globalArgs c) (inputArgs c) (outputArgs c) (Some file)
            (outputFile c).

Definition output (file : string) (c : FfmpegCommand) : FfmpegCommand :=
  mkCommand (globalArgs c) (inputArgs c) (outputArgs c) (inputFile c)
            (Some file).

(** The convenience operators used by the callers in this repository. *)
Definition overwrite : FfmpegCommand -> FfmpegCommand :=
  addGlobalOption "-y" None.
Definition seekInput (timestamp : OptValue) :=
  addInputOption "-ss" (Some timestamp).
Definition frames (count : Z) :=
  addOutputOption "-vframes" (Some (VNum count)).
Definition outputFormat (format : string) :=
  addOutputOption "-f" (Some (VStr format)).

(** [arr.some((x, i) => f(x, i))], scanning from index [i]. *)
Fixpoint some_from {A : Type} (f : A -> Z -> bool) (l : list A) (i : Z)
  : bool :=
  match l with
  | [] => false
  | x :: r => f x i || some_from f r (i + 1)
  end.

Definition some {A : Type} (f : A -> Z -> bool) (l : list A) : bool :=
  some_from f l 0.

(** [outputArgs.some((arg, i) => arg === "-f" && i < outputArgs.length - 1)] *)
Definition hasFormat (c : FfmpegCommand) : bool :=
  some (fun arg i =>
          (arg =? "-f") && (i <? Z.of_nat (List.length (outputArgs c)) - 1)%Z)
       (outputArgs c).

(** [buildArgs()], which the getter [finalArgs] returns. *)
Definition buildArgs (c : FfmpegCommand) : Result (list string) :=
  if negb (truthy (inputFile c)) then inl InputNotSpecified
  else
    let finalArgs :=
      globalArgs c ++ inputArgs c ++ ["-i"; pathOf (inputFile c)]
                   ++ outputArgs c in
    if truthy (outputFile c) then
      inr (finalArgs ++ [pathOf (outputFile c)])
    else if negb (hasFormat c) then inl OutputFormatRequired
         else inr (finalArgs ++ ["pipe:1"]).

Definition finalArgs : FfmpegCommand -> Result (list string) := buildArgs.

End Command.

(** ** Process runner ([packages/core/src/execute.ts]) *)

Module Runner.

Definition Buffer : Type := list Byte.byte.

Record ProgressData : Type := mkProgress {
  frame : option number;
  fps : option number;
  q : option number;
  size : option string;
  time : option string;
  bitrate : option string;
  speed : option string;
  raw : string
}.

Record FfmpegXResult : Type := mkResult {
  stderr : string;
  output : option Buffer
}.

(** The body of the [for (const item of items)] loop: [item.split("=", 2)]
    gives the key and the value, which are trimmed; the [switch] assigns
    the field the key names.  An item without ["="] does not reach the
    loop (see [split_includes]). *)
Definition parseItem (progress : ProgressData) (item : string)
  : ProgressData :=
  match firstn 2 (split item "=") with
  | key :: value :: _ =>
      let trimmedKey := trim key in
      let trimmedValue := trim value in
      let 'mkProgress fr fp qu sz tm br sp rw := progress in
      if trimmedKey =? "frame" then
        mkProgress (Some (parseInt trimmedValue)) fp qu sz tm br sp rw
      else if trimmedKey =? "fps" then
        mkProgress fr (Some (parseFloat trimmedValue)) qu sz tm br sp rw
      else if trimmedKey =? "q" then
        mkProgress fr fp (Some (parseFloat trimmedValue)) sz tm br sp rw
      else if trimmedKey =? "size" then
        mkProgress fr fp qu (Some trimmedValue) tm br sp rw
      else if trimmedKey =? "time" then
        mkProgress fr fp qu sz (Some trimmedValue) br sp rw
      else if trimmedKey =? "bitrate" then
        mkProgress fr fp qu sz tm (Some trimmedValue) sp rw
      else if trimmedKey =? "speed" then
        mkProgress fr fp qu sz tm br (Some trimmedValue) rw
      else progress
  | _ => progress
  end.

(** [line.split(" ").filter((item) => item.includes("="))] *)
Definition items (line : string) : list string :=
  filter (fun item => includes item "=") (split line " ").

Definition parseProgress (line : string) : option ProgressData :=
  if negb (startsWith line "frame=") then None
  else
    let progress :=
      fold_left parseItem (items line)
                (mkProgress None None None None None None None line) in
    if truthy (time progress) then Some progress else None.

(** Notifications of the event emitter ([FfmpegXEvents]). *)
Inductive Notification : Type :=
| Start (command : string)
| Progress (data : ProgressData)
| Stderr (line : string)
| End_ (result : FfmpegXResult)
| ErrorEvent (error : Error) (stderr : string).

(** What the child process delivers to the handlers registered by
    [execute]: data on its two pipes, its [close] with the exit code
    ([null] when a signal ended it), or an [error]. *)
Inductive ChildEvent : Type :=
| StdoutData (chunk : Buffer)
| StderrData (chunk : string)
| Close (code : option Z)
| ChildError (err : string).

(** [s.split(/\r\n|\n|\r/)] *)
Fixpoint splitLines (s : string) : list string :=
  match s with
  | EmptyString => [EmptyString]
  | String c r =>
      if Ascii.eqb c "013" then
        match r with
        | String d r' =>
            if Ascii.eqb d "010" then EmptyString :: splitLines r'
            else EmptyString :: splitLines r
        | EmptyString => EmptyString :: splitLines r
        end
      else if Ascii.eqb c "010" then EmptyString :: splitLines r
      else match splitLines r with
           | h :: t => String c h :: t
           | [] => [String c EmptyString]
           end
  end.

(** The variables the closures of [execute] share, the notifications
    emitted so far and the state of the returned promise. *)
Record RunState : Type := mkRun {
  stdoutChunks : list Buffer;
  stderrText : string;
  stderrBuffer : string;
  emitted : list Notification;
  promise : option (Result FfmpegXResult)
}.

(** [resolve]/[reject]: a promise settles once. *)
Definition settle (v : Result FfmpegXResult)
           (p : option (Result FfmpegXResult))
  : option (Result FfmpegXResult) :=
  match p with
  | None => Some v
  | Some _ => p
  end.

(** The [for (const line of lines)] loop of the stderr handler. *)
Definition emitLine (line : string) : list Notification :=
  match parseProgress line with
  | Some progress => [Stderr line; Progress progress]
  | None => [Stderr line]
  end.

Definition handle (s : RunState) (ev : ChildEvent) : RunState :=
  match ev with
  | StdoutData chunk =>
      mkRun (stdoutChunks s ++ [chunk]) (stderrText s) (stderrBuffer s)
            (emitted s) (promise s)
  | StderrData chunkStr =>
      let lines := splitLines (stderrBuffer s ++ chunkStr) in
      mkRun (stdoutChunks s) (stderrText s ++ chunkStr)
            (last lines "")
            (emitted s ++ flat_map emitLine (removelast lines))
            (promise s)
  | Close code =>
      match code with
      | Some 0%Z =>
          let outputBuffer := List.concat (stdoutChunks s) in
          let result :=
            mkResult (stderrText s)
                     (if (0 <? List.length outputBuffer)%nat
                      then Some outputBuffer else None) in
          mkRun (stdoutChunks s) (stderrText s) (stderrBuffer s)
                (emitted s ++ [End_ result])
                (settle (inr result) (promise s))
      | _ =>
          let error := ExitedWithCode code in
          mkRun (stdoutChunks s) (stderrText s) (stderrBuffer s)
                (emitted s ++ [ErrorEvent error (stderrText s)])
                (settle (inl error) (promise s))
      end
  | ChildError err =>
      mkRun (stdoutChunks s) (stderrText s) (stderrBuffer s)
            (emitted s ++ [ErrorEvent (ProcessError err) (stderrText s)])
            (settle (inl (ProcessError err)) (promise s))
  end.

(** [execute(finalArgs)]: [child] is what [spawn] returns, [None] for a
    falsy handle, otherwise the events the child delivers, in order. *)
Definition execute (resolvedFfmpegPath : string) (finalArgs : list string)
           (child : option (list ChildEvent)) : RunState :=
  let command : string :=
    (resolvedFfmpegPath ++ " " ++ String.concat " " finalArgs)%string in
  match child with
  | None => mkRun [] "" "" [Start command] (Some (inl SpawnFailed))
  | Some events =>
      fold_left handle events (mkRun [] "" "" [Start command] None)
  end.

(** The host: what [spawn] gives for an argument vector. *)
Definition Host : Type := list string -> option (list ChildEvent).

(** [executeFfmpeg(fn)] with a fresh command and a fresh runner: the
    value the returned promise settles with, [None] while it is pending.
    The callback either throws or leaves the command configured; the
    listeners it may register, which the [finally] block removes, have no
    part in that value. *)
Definition executeFfmpeg
           (fn : Command.FfmpegCommand -> Result Command.FfmpegCommand)
           (resolvedFfmpegPath : string) (host : Host)
  : option (Result FfmpegXResult) :=
  match fn Command.empty with
  | inl error => Some (inl error)
  | inr cmd =>
      match Command.finalArgs cmd with
      | inl error => Some (inl error)
      | inr finalArgs =>
          promise (execute resolvedFfmpegPath finalArgs (host finalArgs))
      end
  end.

End Runner.

(** ** Frame sampler ([VideoFrameExtractor]) *)

Module Sampler.

Import Command Runner.
Local Open Scope Q_scope.

(** [ExtractFramesOptions] *)
Module ExtractFramesOptions.
Record t : Type := make {
  totalFrames : option Q;
  fps : option Q
}.
End ExtractFramesOptions.

(** The private fields of the extractor: [probed] says that [videoInfo]
    and [videoStream] are both non-null; the total frame count is an
    integer ([parseInt] or [Math.floor] gives it), the two rates are
    finite numbers. *)
Record VideoFrameExtractor : Type := mkExtractor {
  videoPath : string;
  probed : bool;
  totalFrames : Z;
  fps : Q;
  keyframeIntervalSeconds : Q
}.

(** [validateInitialized()]: [true] when it does not throw. *)
Definition validateInitialized (this : VideoFrameExtractor) : bool :=
  negb (negb (probed this) || (totalFrames this =? 0)%Z).

(** [if (x)] on a [number | undefined]. *)
Definition truthyNum (x : option Q) : bool :=
  match x with
  | None => false
  | Some v => negb (Qeq_bool v 0)
  end.

Definition numOf (x : option Q) : Q :=
  match x with
  | Some v => v
  | None => 0
  end.

(** [a < b] on numbers. *)
Definition Qltb (a b : Q) : bool := negb (Qle_bool b a).

(** [for (let i = i0; cond(i); i++) frameIndices.push(body(i))];
    [None] when the fuel runs out before the condition fails. *)
Fixpoint forLoop (fuel : nat) (cond : Z -> bool) (body : Z -> Z) (i : Z)
         (frameIndices : list Z) : option (list Z) :=
  match fuel with
  | O => None
  | S fuel' =>
      if cond i
      then forLoop fuel' cond body (i + 1) (frameIndices ++ [body i])
      else Some frameIndices
  end.

(** A [Set] of numbers, as the list of its elements in insertion order. *)
Definition setAdd (s : list Z) (x : Z) : list Z :=
  if existsb (Z.eqb x) s then s else s ++ [x].

(** [[...new Set(l)]] *)
Definition newSet (l : list Z) : list Z := fold_left setAdd l [].

Definition calculateFrameIndices (fuel : nat) (this : VideoFrameExtractor)
           (options : ExtractFramesOptions.t) : option (list Z) :=
  let frameIndices :=
    if truthyNum (ExtractFramesOptions.totalFrames options) then
      let framesToExtract :=
        Qmin (numOf (ExtractFramesOptions.totalFrames options))
             (inject_Z (totalFrames this)) in
      let interval := inject_Z (totalFrames this) / framesToExtract in
      forLoop fuel
              (fun i => Qltb (inject_Z i) framesToExtract)
              (fun i => Qfloor (inject_Z i * interval + interval / 2))
              0%Z []
    else if truthyNum (ExtractFramesOptions.fps options) then
      let interval := fps this / numOf (ExtractFramesOptions.fps options) in
      forLoop fuel
              (fun i => Qltb (inject_Z i * interval)
                             (inject_Z (totalFrames this)))
              (fun i => Qfloor (inject_Z i * interval))
              0%Z []
    else Some [] in
  option_map newSet frameIndices.


(** [s.padStart(width, "0")] *)
Definition padStart (width : nat) (s : string) : string :=
  (string_of_list_ascii (repeat "0"%char (width - String.length s)%nat)
     ++ s)%string.

(** [x.toFixed(6)]: the sign, then the nearest multiple of 10^-6 (a tie
    goes up), with six digits after the point. *)
Definition toFixed6 (x : Q) : string :=
  let negative := Qltb x 0 in
  let ax := if negative then - x else x in
  let n := Qfloor (ax * inject_Z 1000000 + (1 # 2)) in
  let m := padStart 7 (string_of_Z n) in
  let k := (String.length m - 6)%nat in
  ((if negative then "-" else "")
     ++ substring 0 k m ++ "." ++ substring k 6 m)%string.

(** The two seek positions of the dual-seek method. *)
Definition coarseSeekTime (this : VideoFrameExtractor)
           (targetTimestamp : Q) : Q :=
  Qmax 0 (targetTimestamp - keyframeIntervalSeconds this).

Definition preciseSeekOffset (this : VideoFrameExtractor)
           (targetTimestamp : Q) : Q :=
  targetTimestamp - coarseSeekTime this targetTimestamp.

(** The callback [extract] hands to [executeFfmpeg] for one frame. *)
Definition frameCommand (this : VideoFrameExtractor) (frameIndex : Z)
           (cmd : FfmpegCommand) : Result FfmpegCommand :=
  let targetTimestamp := inject_Z frameIndex / fps this in
  let cmd := addInputOption "-ss"
               (Some (VStr (toFixed6 (coarseSeekTime this targetTimestamp))))
               cmd in
  let cmd := input (videoPath this) cmd in
  let cmd := addOutputOption "-ss"
               (Some (VStr (toFixed6 (preciseSeekOffset this targetTimestamp))))
               cmd in
  let cmd := addOutputOption "-vframes" (Some (VNum 1)) cmd in
  let cmd := addOutputOption "-q:v" (Some (VNum 2)) cmd in
  inr (outputFormat "image2pipe" cmd).

(** The [.then(..).catch(..)] chained on one frame's invocation: the
    buffer when there is a non-empty one, [null] otherwise. *)
Definition frameSlot (outcome : Result FfmpegXResult) : option Buffer :=
  match outcome with
  | inr result =>
      match output result with
      | Some buffer =>
          if (0 <? List.length buffer)%nat then Some buffer else None
      | None => None
      end
  | inl _ => None
  end.

(** [values[index] = value] *)
Fixpoint setIndex {A : Type} (l : list A) (index : nat) (value : A)
  : list A :=
  match l, index with
  | [], _ => []
  | _ :: r, O => value :: r
  | x :: r, S i => x :: setIndex r i value
  end.

(** All the values of an array whose slots are all filled. *)
Fixpoint collect {A : Type} (values : list (option A)) : option (list A) :=
  match values with
  | [] => Some []
  | Some v :: r => option_map (cons v) (collect r)
  | None :: r => None
  end.

(** The host's [Promise.all]: [promises] holds what each promise settles
    with, [order] the indices of the promises in the order in which they
    settle.  A fulfilment stores the value at the promise's index; the
    last one fulfils the result with the array; a rejection rejects it.
    [None] is a result that stays pending. *)
Fixpoint awaitAll {A : Type} (promises : list (Error + A))
         (order : list nat) (values : list (option A)) (remaining : nat)
  : option (Error + list A) :=
  match order with
  | [] => None
  | index :: rest =>
      match nth_error promises index with
      | Some (inl error) => Some (inl error)
      | Some (inr value) =>
          let values' := setIndex values index (Some value) in
          match remaining with
          | 1%nat => option_map inr (collect values')
          | _ => awaitAll promises rest values' (Nat.pred remaining)
          end
      | None => awaitAll promises rest values remaining
      end
  end.

Definition promiseAll {A : Type} (promises : list (Error + A))
           (order : list nat) : option (Error + list A) :=
  match promises with
  | [] => Some (inr [])
  | _ =>
      awaitAll promises order (repeat None (List.length promises))
               (List.length promises)
  end.

(** [frameBuffers.filter((buffer) => buffer !== null)] *)
Fixpoint nonNull (frameBuffers : list (option Buffer)) : list Buffer :=
  match frameBuffers with
  | [] => []
  | Some buffer :: r => buffer :: nonNull r
  | None :: r => nonNull r
  end.

(** The mapped promises of [extract]: one per frame index, in dispatch
    order, each settled with a buffer or [null]; [None] when some
    invocation never settles. *)
Fixpoint extractionPromises (outcomes : list (option (Result FfmpegXResult)))
  : option (list (Error + option Buffer)) :=
  match outcomes with
  | [] => Some []
  | Some outcome :: r =>
      option_map (cons (inr (frameSlot outcome))) (extractionPromises r)
  | None :: r => None
  end.

(** [extract(options)]: what the returned promise settles with, [None]
    while it is pending; it is rejected with [NotInitialized] when
    [validateInitialized] throws ([validateOptions] has an empty body).
    [order] is the order in which the per-frame invocations settle. *)
Definition extract (fuel : nat) (this : VideoFrameExtractor)
           (options : ExtractFramesOptions.t)
           (resolvedFfmpegPath : string) (host : Host) (order : list nat)
  : option (Result (list Buffer)) :=
  if negb (validateInitialized this) then Some (inl NotInitialized)
  else
      match calculateFrameIndices fuel this options with
      | None => None
      | Some frameIndices =>
          let outcomes :=
            map (fun frameIndex =>
                   executeFfmpeg (frameCommand this frameIndex)
                                 resolvedFfmpegPath host)
                frameIndices in
          match extractionPromises outcomes with
          | None => None
          | Some promises =>
              match promiseAll promises order with
              | Some (inr frameBuffers) => Some (inr (nonNull frameBuffers))
              | Some (inl error) => Some (inl error)
              | None => None
              end
          end
      end.

End Sampler.

(** * Vocabulary of the statements

    The predicates and closed forms the theorems are stated with, and the
    concrete inputs they are evaluated on. *)

(** Some ["-f"] of the list has a token after it. *)
Definition followedFormat (args : list string) : Prop :=
  exists i, nth_error args i = Some "-f" /\ (S i < List.length args)%nat.

(** Every ["-f"] of the list is its last element. *)
Definition formatOnlyLast (args : list string) : Prop :=
  forall i, nth_error args i = Some "-f" -> S i = List.length args.

(** The last token of a rendered vector: the output path when the code
    finds one set, the stdout sentinel otherwise. *)
Definition outputTarget (c : Command.FfmpegCommand) : string :=
  if truthy (Command.outputFile c) then pathOf (Command.outputFile c)
  else "pipe:1".

(** The bytes a list of child events carries on stdout, in order. *)
Fixpoint stdoutOf (events : list Runner.ChildEvent) : Runner.Buffer :=
  match events with
  | [] => []
  | Runner.StdoutData chunk :: r => chunk ++ stdoutOf r
  | _ :: r => stdoutOf r
  end.

(** The text a list of child events carries on stderr, in order. *)
Fixpoint stderrOf (events : list Runner.ChildEvent) : string :=
  match events with
  | [] => ""
  | Runner.StderrData chunk :: r => (chunk ++ stderrOf r)%string
  | _ :: r => stderrOf r
  end.

(** Data on one of the two pipes, as opposed to [close] and [error]. *)
Definition isData (ev : Runner.ChildEvent) : Prop :=
  match ev with
  | Runner.StdoutData _ | Runner.StderrData _ => True
  | _ => False
  end.

(** The notifications that end an invocation. *)
Definition terminal (n : Runner.Notification) : bool :=
  match n with
  | Runner.End_ _ | Runner.ErrorEvent _ _ => true
  | _ => false
  end.

(** The result of a clean exit after the given data. *)
Definition resultOf (data : list Runner.ChildEvent) : Runner.FfmpegXResult :=
  Runner.mkResult (stderrOf data)
                  (if (0 <? List.length (stdoutOf data))%nat
                   then Some (stdoutOf data) else None).

(** The trimmed key of an item of a progress line. *)
Definition keyOf (item : string) : string :=
  trim (hd "" (split item "=")).

(** The integers [0], [1], ..., [n - 1]. *)
Definition range (n : nat) : list Z := map Z.of_nat (seq 0 n).

(** The index at the centre of the [i]-th of [m] equal intervals of
    [0, T): the floor of [(i + 1/2) * T / m]. *)
Definition centredIndex (T m i : Z) : Z := ((2 * i + 1) * T / (2 * m))%Z.




Module Examples.

Import Command Runner Sampler.

(** An input, no output file and ["-f"] as the only output argument. *)
Definition bareFormat : FfmpegCommand :=
  addOutputOption "-f" None (input "in.mp4" empty).

(** The frame grab of the specification. *)
Definition snapshot : FfmpegCommand :=
  outputFormat "image2pipe" (frames 1 (input "in.mp4" empty)).

(** A frame grab whose format flag was added last and without a value. *)
Definition danglingFormat : FfmpegCommand :=
  addOutputOption "-f" None (frames 1 (input "in.mp4" empty)).

(** The progress line of the specification. *)
Definition sampleLine : string :=
  "frame=  120 fps=25.0 q=23.0 size=    256kB time=00:00:04.80 bitrate= 426.7kbits/s speed=0.98x".

(** The same line with values that are not padded. *)
Definition unpaddedLine : string :=
  "frame=120 fps=25.0 q=23.0 size=256kB time=00:00:04.80 bitrate=426.7kbits/s speed=0.98x".

(** A child that logs one line and writes 500 bytes in two chunks. *)
Definition image500 : list ChildEvent :=
  [StderrData "Press [q] to stop"; StdoutData (repeat Byte.xff 200);
   StderrData (String "010" ""); StdoutData (repeat Byte.xd8 300)].


(** A 30 fps source of four frames, with the default keyframe estimate. *)
Definition fourFrames : VideoFrameExtractor :=
  mkExtractor "input3.mp4" true 4 30 5.

(** A 25 fps source of ten frames. *)
Definition tenFrames : VideoFrameExtractor :=
  mkExtractor "input3.mp4" true 10 25 5.


(** A host on which the invocation seeking to offset 1 exits with code 1
    and every other one writes two bytes and exits cleanly. *)
Definition flakyHost : Host :=
  fun finalArgs =>
    if existsb (String.eqb "1.000000") finalArgs
    then Some [StderrData "Conversion failed!"; Close (Some 1%Z)]
    else Some [StdoutData [Byte.xff; Byte.xd8]; Close (Some 0%Z)].

End Examples.

(** * The rest of the code *)

(** ** The operator table of [FfmpegCommand.ts]

    The remaining convenience operators, and a call of an operator as a
    value, so that what a configuration callback does is a list of
    calls. *)

Module Operators.

Import Command.

(** The log levels [logLevel] accepts. *)
Inductive LogLevel : Type :=
| quiet | panic | fatal | error | warning | info | verbose | debug.

Definition levelName (level : LogLevel) : string :=
  match level with
  | quiet => "quiet"
  | panic => "panic"
  | fatal => "fatal"
  | error => "error"
  | warning => "warning"
  | info => "info"
  | verbose => "verbose"
  | debug => "debug"
  end.

(** The presets [preset] accepts. *)
Inductive Preset : Type :=
| ultrafast | superfast | veryfast | faster | fast | medium | slow
| slower | veryslow.

Definition presetName (p : Preset) : string :=
  match p with
  | ultrafast => "ultrafast"
  | superfast => "superfast"
  | veryfast => "veryfast"
  | faster => "faster"
  | fast => "fast"
  | medium => "medium"
  | slow => "slow"
  | slower => "slower"
  | veryslow => "veryslow"
  end.

Definition logLevel (level : LogLevel) :=
  addGlobalOption "-v" (Some (VStr (levelName level))).
Definition durationInput (duration : OptValue) :=
  addInputOption "-t" (Some duration).
Definition duration (duration : OptValue) :=
  addOutputOption "-t" (Some duration).
Definition videoCodec (codec : string) :=
  addOutputOption "-c:v" (Some (VStr codec)).
Definition frameRate (rate : Z) :=
  addOutputOption "-r" (Some (VNum rate)).
Definition size (size : string) :=
  addOutputOption "-s" (Some (VStr size)).
Definition videoBitrate (bitrate : string) :=
  addOutputOption "-b:v" (Some (VStr bitrate)).
Definition crf (value : Z) :=
  addOutputOption "-crf" (Some (VNum value)).
Definition preset (p : Preset) :=
  addOutputOption "-preset" (Some (VStr (presetName p))).
Definition audioCodec (codec : string) :=
  addOutputOption "-c:a" (Some (VStr codec)).
Definition audioBitrate (bitrate : string) :=
  addOutputOption "-b:a" (Some (VStr bitrate)).
Definition audioChannels (channels : Z) :=
  addOutputOption "-ac" (Some (VNum channels)).
Definition audioSampleRate (rate : Z) :=
  addOutputOption "-ar" (Some (VNum rate)).
Definition noVideo : FfmpegCommand -> FfmpegCommand :=
  addOutputOption "-vn" None.
Definition noAudio : FfmpegCommand -> FfmpegCommand :=
  addOutputOption "-an" None.
Definition filter (filterStr : string) :=
  addOutputOption "-vf" (Some (VStr filterStr)).

(** One call [cmd.operators.<name>(...)]. *)
Inductive Call : Type :=
| CInput (file : string)
| COutput (file : string)
| COverwrite
| CLogLevel (level : LogLevel)
| CSeekInput (timestamp : OptValue)
| CDurationInput (duration : OptValue)
| CDuration (duration : OptValue)
| CVideoCodec (codec : string)
| CFrameRate (rate : Z)
| CSize (size : string)
| CVideoBitrate (bitrate : string)
| CCrf (value : Z)
| CPreset (p : Preset)
| CFrames (count : Z)
| CAudioCodec (codec : string)
| CAudioBitrate (bitrate : string)
| CAudioChannels (channels : Z)
| CAudioSampleRate (rate : Z)
| CNoVideo
| CNoAudio
| CFilter (filterStr : string)
| COutputFormat (format : string)
| CAddGlobalOption (key : string) (value : option OptValue)
| CAddInputOption (key : string) (value : option OptValue)
| CAddOutputOption (key : string) (value : option OptValue).

(** The effect of one call on the builder state. *)
Definition run (call : Call) : FfmpegCommand -> FfmpegCommand :=
  match call with
  | CInput file => input file
  | COutput file => output file
  | COverwrite => overwrite
  | CLogLevel level => logLevel level
  | CSeekInput timestamp => seekInput timestamp
  | CDurationInput d => durationInput d
  | CDuration d => duration d
  | CVideoCodec codec => videoCodec codec
  | CFrameRate rate => frameRate rate
  | CSize s => size s
  | CVideoBitrate bitrate => videoBitrate bitrate
  | CCrf value => crf value
  | CPreset p => preset p
  | CFrames count => frames count
  | CAudioCodec codec => audioCodec codec
  | CAudioBitrate bitrate => audioBitrate bitrate
  | CAudioChannels channels => audioChannels channels
  | CAudioSampleRate rate => audioSampleRate rate
  | CNoVideo => noVideo
  | CNoAudio => noAudio
  | CFilter filterStr => filter filterStr
  | COutputFormat format => outputFormat format
  | CAddGlobalOption key value => addGlobalOption key value
  | CAddInputOption key value => addInputOption key value
  | CAddOutputOption key value => addOutputOption key value
  end.

(** A callback body: the calls are made in order. *)
Definition runAll (calls : list Call) (c : FfmpegCommand) : FfmpegCommand :=
  fold_left (fun c call => run call c) calls c.

(** The callback of [demo.ts] ([extractCover]) for an input path. *)
Definition extractCover (inputVideo : string) : list Call :=
  [CAddInputOption "-ss" (Some (VStr "00:00:00")); CInput inputVideo;
   CAddOutputOption "-vframes" (Some (VNum 1));
   CAddOutputOption "-q:v" (Some (VNum 2)); COutputFormat "image2pipe"].

(** The callback of the version demo: one global option. *)
Definition versionDemo : list Call := [CAddGlobalOption "-version" None].

End Operators.

(** ** Arithmetic on parsed numbers

    JavaScript arithmetic on [number], with exact rationals for the finite
    values.  Zero is unsigned here: a division by zero takes the sign of
    the dividend. *)

Module Numbers.

Definition isNaN (x : number) : bool :=
  match x with
  | NaN => true
  | _ => false
  end.

Definition negativeQ (a : Q) : bool := Sampler.Qltb a 0.

(** [x / y] *)
Definition div (x y : number) : number :=
  match x, y with
  | NaN, _ | _, NaN => NaN
  | Infinity _, Infinity _ => NaN
  | Infinity s, Fin b => Infinity (xorb s (negativeQ b))
  | Fin _, Infinity _ => Fin 0
  | Fin a, Fin b =>
      if Qeq_bool b 0
      then if Qeq_bool a 0 then NaN else Infinity (negativeQ a)
      else Fin (Qred (a / b))
  end.

(** [x * y] *)
Definition mul (x y : number) : number :=
  match x, y with
  | NaN, _ | _, NaN => NaN
  | Infinity s, Infinity t => Infinity (xorb s t)
  | Infinity s, Fin b | Fin b, Infinity s =>
      if Qeq_bool b 0 then NaN else Infinity (xorb s (negativeQ b))
  | Fin a, Fin b => Fin (Qred (a * b))
  end.

(** [Math.floor(x)] *)
Definition floor (x : number) : number :=
  match x with
  | Fin a => Fin (inject_Z (Qfloor a))
  | _ => x
  end.

(** [Math.max(x, y)] *)
Definition max (x y : number) : number :=
  match x, y with
  | NaN, _ | _, NaN => NaN
  | Infinity false, _ | _, Infinity false => Infinity false
  | Infinity true, z | z, Infinity true => z
  | Fin a, Fin b => Fin (Qmax a b)
  end.

(** [x > 0] and [x <= 0]; both are false on NaN. *)
Definition positive (x : number) : bool :=
  match x with
  | NaN => false
  | Infinity s => negb s
  | Fin a => Sampler.Qltb 0 a
  end.

Definition nonPositive (x : number) : bool :=
  match x with
  | NaN => false
  | Infinity s => s
  | Fin a => Qle_bool a 0
  end.

(** [x === 0] *)
Definition isZero (x : number) : bool :=
  match x with
  | Fin a => Qeq_bool a 0
  | _ => false
  end.

End Numbers.

(** ** Initialization of the extractor ([VideoFrameExtractor.initialize]) *)

Module Initialize.

(** What [initialize] reads of a stream of the probe report: the declared
    [codec_type], and three of the open extension fields. *)
Record FfprobeStream : Type := mkStream {
  codec_type : string;
  avg_frame_rate : option string;
  nb_frames : option string;
  r_frame_rate : option string
}.

(** What it reads of the report: the streams and [format.duration]. *)
Record FfprobeData : Type := mkProbe {
  streams : list FfprobeStream;
  format_duration : option string
}.

(** The errors [initialize] ends with: a rejected probe, its own three,
    and the [TypeError] of calling [includes] on an absent frame rate. *)
Inductive InitError : Type :=
| ProbeFailed (message : string)
| NoVideoStream
| UnknownFrameCount
| InvalidFrameCount
| TypeError.

(** The private fields of the extractor, as [initialize] writes them. *)
Record Fields : Type := mkFields {
  videoInfo : option FfprobeData;
  videoStream : option FfprobeStream;
  totalFrames : number;
  fps : number;
  keyframeIntervalSeconds : number
}.

(** The fields after the constructor. *)
Definition fresh : Fields :=
  mkFields None None (Fin 0) (Fin 0) (Fin (inject_Z 5)).

(** [parseFrameRate(frameRateStr)] *)
Definition parseFrameRate (frameRateStr : string) : number :=
  if includes frameRateStr "/" then
    match split frameRateStr "/" with
    | numerator :: denominator :: _ =>
        Numbers.div (parseInt numerator) (parseInt denominator)
    | _ => NaN
    end
  else parseFloat frameRateStr.

(** [streams.find((s) => s.codec_type === "video") ?? null] *)
Definition findVideo (l : list FfprobeStream) : option FfprobeStream :=
  find (fun s => codec_type s =? "video") l.

(** [initialize()]: the fields it leaves behind and whether it threw. *)
Definition initialize (this : Fields) (probe : string + FfprobeData)
  : Fields * option InitError :=
  match probe with
  | inl message => (this, Some (ProbeFailed message))
  | inr info =>
      let this := mkFields (Some info) (findVideo (streams info))
                           (totalFrames this) (fps this)
                           (keyframeIntervalSeconds this) in
      match videoStream this with
      | None => (this, Some NoVideoStream)
      | Some stream =>
          match avg_frame_rate stream with
          | None => (this, Some TypeError)
          | Some rate =>
              let this := mkFields (videoInfo this) (videoStream this)
                                   (totalFrames this) (parseFrameRate rate)
                                   (keyframeIntervalSeconds this) in
              let counted :=
                if truthy (nb_frames stream)
                   && Numbers.positive (parseInt (pathOf (nb_frames stream)))
                then Some (parseInt (pathOf (nb_frames stream)))
                else if truthy (format_duration info)
                then Some (Numbers.floor
                             (Numbers.mul
                                (parseFloat (pathOf (format_duration info)))
                                (fps this)))
                else None in
              match counted with
              | None => (this, Some UnknownFrameCount)
              | Some count =>
                  let this := mkFields (videoInfo this) (videoStream this)
                                       count (fps this)
                                       (keyframeIntervalSeconds this) in
                  if Numbers.isNaN (totalFrames this)
                     || Numbers.nonPositive (totalFrames this)
                  then (this, Some InvalidFrameCount)
                  else if truthy (r_frame_rate stream)
                  then (mkFields (videoInfo this) (videoStream this)
                                 (totalFrames this) (fps this)
                                 (Numbers.max
                                    (Fin (inject_Z 2))
                                    (Numbers.div
                                       (Fin (inject_Z 250))
                                       (parseFrameRate
                                          (pathOf (r_frame_rate stream))))),
                        None)
                  else (this, None)
              end
          end
      end
  end.

(** [!x] on an object reference. *)
Definition isNull {A : Type} (x : option A) : bool :=
  match x with
  | None => true
  | Some _ => false
  end.

(** [validateInitialized()] on these fields: [true] when it does not
    throw. *)
Definition validateInitialized (this : Fields) : bool :=
  negb (isNull (videoInfo this) || isNull (videoStream this)
        || Numbers.isZero (totalFrames this)).

End Initialize.

(** ** The probe ([FfmpegX.probe])

    [JSON.parse] is the host's: it is a parameter that gives the parsed
    report or the text of the exception it throws. *)

Module Probe.

Section WithJson.

Variable Data : Type.
Variable jsonParse : string -> string + Data.

(** What the probing child delivers: text on its two pipes (each chunk
    after [toString()]), its [close], or an [error]. *)
Inductive ProbeEvent : Type :=
| OutText (chunk : string)
| ErrText (chunk : string)
| Exit (code : option Z)
| Fail (err : string).

(** The two accumulators and the state of the returned promise; a
    rejection holds the message of its error. *)
Record ProbeState : Type := mkProbeState {
  stdout : string;
  stderr : string;
  settled : option (string + Data)
}.

(** The argument vector of the probing child. *)
Definition probeArgs (file : string) : list string :=
  ["-v"; "quiet"; "-print_format"; "json"; "-show_format"; "-show_streams";
   file].

(** [`${code}`] *)
Definition codeText (code : option Z) : string :=
  match code with
  | Some c => string_of_Z c
  | None => "null"
  end.

Definition settleOnce (v : string + Data) (p : option (string + Data))
  : option (string + Data) :=
  match p with
  | None => Some v
  | Some _ => p
  end.

Definition newline : string := String "010" "".

Definition handle (s : ProbeState) (ev : ProbeEvent) : ProbeState :=
  match ev with
  | OutText chunk => mkProbeState (stdout s ++ chunk) (stderr s) (settled s)
  | ErrText chunk => mkProbeState (stdout s) (stderr s ++ chunk) (settled s)
  | Exit code =>
      match code with
      | Some 0%Z =>
          match jsonParse (stdout s) with
          | inr data =>
              mkProbeState (stdout s) (stderr s)
                           (settleOnce (inr data) (settled s))
          | inl e =>
              mkProbeState
                (stdout s) (stderr s)
                (settleOnce
                   (inl ("Failed to parse ffprobe JSON output: " ++ e
                           ++ newline ++ stdout s)%string)
                   (settled s))
          end
      | _ =>
          mkProbeState
            (stdout s) (stderr s)
            (settleOnce
               (inl ("ffprobe exited with code " ++ codeText code
                       ++ newline ++ stderr s)%string)
               (settled s))
      end
  | Fail err =>
      mkProbeState (stdout s) (stderr s) (settleOnce (inl err) (settled s))
  end.

(** [probe(file)]: what the promise settles with after the child's
    events, [None] while it is pending. *)
Definition probe (events : list ProbeEvent) : option (string + Data) :=
  settled (fold_left handle events (mkProbeState "" "" None)).

(** The text a list of events carries on each pipe. *)
Fixpoint outOf (events : list ProbeEvent) : string :=
  match events with
  | [] => ""
  | OutText chunk :: r => (chunk ++ outOf r)%string
  | _ :: r => outOf r
  end.

Fixpoint errOf (events : list ProbeEvent) : string :=
  match events with
  | [] => ""
  | ErrText chunk :: r => (chunk ++ errOf r)%string
  | _ :: r => errOf r
  end.

Definition isText (ev : ProbeEvent) : Prop :=
  match ev with
  | OutText _ | ErrText _ => True
  | _ => False
  end.

End WithJson.

End Probe.

(** * Vocabulary of the further statements *)

(** The five fields of the builder state. *)
Inductive Field : Type :=
| FGlobalArgs | FInputArgs | FOutputArgs | FInputFile | FOutputFile.

(** The field a call writes. *)
Definition target (call : Operators.Call) : Field :=
  match call with
  | Operators.CInput _ => FInputFile
  | Operators.COutput _ => FOutputFile
  | Operators.COverwrite | Operators.CLogLevel _
  | Operators.CAddGlobalOption _ _ => FGlobalArgs
  | Operators.CSeekInput _ | Operators.CDurationInput _
  | Operators.CAddInputOption _ _ => FInputArgs
  | _ => FOutputArgs
  end.

(** [l] with something appended. *)
Definition extends (l l' : list string) : Prop :=
  exists added, l' = l ++ added.

(** Carriage return and line feed. *)
Definition CR : ascii := "013"%char.
Definition LF : ascii := "010"%char.

(** Whether a text holds a line terminator character. *)
Fixpoint hasNewline (s : string) : bool :=
  match s with
  | EmptyString => false
  | String c r => Ascii.eqb c CR || Ascii.eqb c LF || hasNewline r
  end.

(** The [start] notifications among those emitted. *)
Definition isStart (n : Runner.Notification) : bool :=
  match n with
  | Runner.Start _ => true
  | _ => false
  end.

(** The lines notified on [stderr], in order. *)
Fixpoint stderrLines (emitted : list Runner.Notification) : list string :=
  match emitted with
  | [] => []
  | Runner.Stderr line :: r => line :: stderrLines r
  | _ :: r => stderrLines r
  end.

(** A number that is a positive integer or positive infinity. *)
Definition positiveCount (x : number) : Prop :=
  match x with
  | Fin a => exists z, (0 < z)%Z /\ a = inject_Z z
  | Infinity negative => negative = false
  | NaN => False
  end.

(** The report of a single video stream with the given fields. *)
Definition oneStream (rate : option string) (frames rRate : option string)
           (duration : option string) : Initialize.FfprobeData :=
  Initialize.mkProbe [Initialize.mkStream "video" rate frames rRate]
                     duration.

(** The state in which [execute] registers its handlers. *)
Definition started (resolvedFfmpegPath : string) (finalArgs : list string)
  : Runner.RunState :=
  Runner.execute resolvedFfmpegPath finalArgs (Some []).

(** The terminal notification a close gives after the given data. *)
Definition closing (data : list Runner.ChildEvent) (code : option Z)
  : Runner.Notification :=
  match code with
  | Some 0%Z => Runner.End_ (resultOf data)
  | _ => Runner.ErrorEvent (ExitedWithCode code) (stderrOf data)
  end.

(** The text held back, and the lines notified, after some events. *)
Definition buffered (path : string) (args : list string)
           (events : list Runner.ChildEvent) : string :=
  Runner.stderrBuffer (Runner.execute path args (Some events)).

Definition notified (path : string) (args : list string)
           (events : list Runner.ChildEvent) : list string :=
  stderrLines (Runner.emitted (Runner.execute path args (Some events))).

(** The count [initialize] computes before it checks it: [nb_frames] when
    it is positive, else the floor of duration times rate, else none. *)
Definition counted (info : Initialize.FfprobeData)
           (stream : Initialize.FfprobeStream) (rate : string)
  : option number :=
  if truthy (Initialize.nb_frames stream)
     && Numbers.positive (parseInt (pathOf (Initialize.nb_frames stream)))
  then Some (parseInt (pathOf (Initialize.nb_frames stream)))
  else if truthy (Initialize.format_duration info)
  then Some (Numbers.floor
               (Numbers.mul
                  (parseFloat (pathOf (Initialize.format_duration info)))
                  (Initialize.parseFrameRate rate)))
  else None.

Module Reports.

Import Initialize.

(** An NTSC stream without a frame count, 10.5 seconds long. *)
Definition ntscReport : FfprobeData :=
  oneStream (Some "30000/1001") None (Some "30000/1001") (Some "10.5").

(** A stream with a frame count, an undefined rate and a duration that is
    not a number. *)
Definition countedStream : FfprobeStream :=
  mkStream "video" (Some "0/0") (Some "250") None.

Definition countedReport : FfprobeData :=
  mkProbe [countedStream] (Some "not a number").

(** A PAL stream of 250 frames. *)
Definition palStream : FfprobeStream :=
  mkStream "video" (Some "25/1") (Some "250") (Some "25/1").

Definition palReport : FfprobeData := mkProbe [palStream] None.

(** A still picture: the rates are 0/0 and there is no frame count. *)
Definition stillReport : FfprobeData :=
  oneStream (Some "0/0") None (Some "0/0") (Some "10.5").

(** A report with an audio stream only. *)
Definition audioReport : FfprobeData :=
  mkProbe [mkStream "audio" None None None] (Some "3.2").


(** A parser that accepts one text. *)
Definition toyParse (text : string) : string + nat :=
  if text =? "{}" then inr 0%nat
  else inl "SyntaxError: Unexpected end of JSON input".

End Reports.

(** * Properties of the command model *)

Module CommandSpec.

Import Command Examples.

Lemma truthy_some (f : option string) :
  truthy f = true -> exists s, f = Some s /\ s <> "".
Proof.
  destruct f as [s|]; simpl; [|discriminate].
  intros H. exists s. split; [reflexivity|].
  intros ->. discriminate.
Qed.

Lemma some_from_true {A : Type} (f : A -> Z -> bool) (l : list A) :
  forall k,
    some_from f l k = true <->
    exists i x, nth_error l i = Some x /\ f x (k + Z.of_nat i)%Z = true.
Proof.
  induction l as [|a l IH]; intros k; simpl.
  - split; [discriminate|].
    intros (i & x & H & _). destruct i; discriminate.
  - rewrite orb_true_iff, IH. split.
    + intros [H | (i & x & Hn & Hf)].
      * exists 0%nat, a. simpl. rewrite Z.add_0_r. auto.
      * exists (S i), x. simpl. split; [assumption|].
        replace (k + Z.pos (Pos.of_succ_nat i))%Z
          with (k + 1 + Z.of_nat i)%Z by lia.
        assumption.
    + intros (i & x & Hn & Hf). destruct i as [|i]; simpl in *.
      * injection Hn as ->. rewrite Z.add_0_r in Hf. auto.
      * right. exists i, x. split; [assumption|].
        replace (k + 1 + Z.of_nat i)%Z
          with (k + Z.pos (Pos.of_succ_nat i))%Z by lia.
        assumption.
Qed.

Lemma hasFormat_followed (c : FfmpegCommand) :
  hasFormat c = true <-> followedFormat (outputArgs c).
Proof.
  unfold hasFormat, some, followedFormat.
  rewrite some_from_true. split.
  - intros (i & x & Hn & Hf).
    apply andb_true_iff in Hf as [Hx Hi].
    apply String.eqb_eq in Hx. subst x.
    apply Z.ltb_lt in Hi. exists i. split; [assumption|lia].
  - intros (i & Hn & Hi). exists i, "-f". split; [assumption|].
    apply andb_true_iff. split; [reflexivity|].
    apply Z.ltb_lt. lia.
Qed.

Lemma hasFormat_false (c : FfmpegCommand) :
  hasFormat c = false <-> ~ followedFormat (outputArgs c).
Proof.
  rewrite <- hasFormat_followed.
  destruct (hasFormat c); split; intros H; try reflexivity;
    try discriminate; [contradiction H; reflexivity].
Qed.

Lemma absent_not_followed (args : list string) :
  ~ In "-f" args -> ~ followedFormat args.
Proof.
  intros Hn (i & Hi & _). apply Hn. eapply nth_error_In. exact Hi.
Qed.

Lemma onlyLast_not_followed (args : list string) :
  formatOnlyLast args -> ~ followedFormat args.
Proof.
  intros Hl (i & Hi & Hlt). apply Hl in Hi. lia.
Qed.

(** The outcome of [buildArgs] by cases on what it tests. *)
Lemma buildArgs_cases (c : FfmpegCommand) :
  buildArgs c =
  if truthy (inputFile c) then
    if truthy (outputFile c) || hasFormat c then
      inr (globalArgs c ++ inputArgs c ++ ["-i"; pathOf (inputFile c)]
                      ++ outputArgs c ++ [outputTarget c])
    else inl OutputFormatRequired
  else inl InputNotSpecified.
Proof.
  unfold buildArgs, outputTarget.
  destruct (truthy (inputFile c)); simpl; [|reflexivity].
  destruct (truthy (outputFile c)); simpl.
  - now rewrite <- !app_assoc.
  - destruct (hasFormat c); simpl; [|reflexivity].
    now rewrite <- !app_assoc.
Qed.

(** C1 (as amended).  Rendering fails with a ConfigurationError when the
    input file is unset (null or the empty string), and when the input is
    set, no output file is set and the output arguments hold no ["-f"];
    rendering fails, always with a ConfigurationError, exactly when the
    input file is unset or no output file is set and no ["-f"] of the
    output arguments is followed by a further token. *)
Theorem render_fails_exactly (c : FfmpegCommand) :
  (truthy (inputFile c) = false -> buildArgs c = inl InputNotSpecified) /\
  (truthy (inputFile c) = true -> truthy (outputFile c) = false ->
   ~ In "-f" (outputArgs c) -> buildArgs c = inl OutputFormatRequired) /\
  (forall e, buildArgs c = inl e -> kind e = ConfigurationError) /\
  ((exists e, buildArgs c = inl e) <->
   truthy (inputFile c) = false \/
   (truthy (outputFile c) = false /\ ~ followedFormat (outputArgs c))).
Proof.
  rewrite buildArgs_cases.
  destruct (truthy (inputFile c)) eqn:Hin;
    [destruct (truthy (outputFile c)) eqn:Hout; simpl;
     [|destruct (hasFormat c) eqn:Hf;
       [apply hasFormat_followed in Hf|apply hasFormat_false in Hf]]|];
    (split; [|split; [|split; [|split]]]).
  (* input and output set *)
  - discriminate.
  - discriminate.
  - discriminate.
  - intros [e He]. discriminate.
  - intros [H | [H _]]; discriminate.
  (* input set, no output, a followed format flag *)
  - discriminate.
  - intros _ _ Hn. now apply absent_not_followed in Hn.
  - discriminate.
  - intros [e He]. discriminate.
  - intros [H | [_ H]]; [discriminate|contradiction].
  (* input set, no output, no followed format flag *)
  - discriminate.
  - reflexivity.
  - intros e He. injection He as <-. reflexivity.
  - intros _. right. split; [reflexivity|assumption].
  - intros _. eexists. reflexivity.
  (* no input *)
  - reflexivity.
  - discriminate.
  - intros e He. injection He as <-. reflexivity.
  - intros _. left. reflexivity.
  - intros _. eexists. reflexivity.
Qed.

Lemma render_fails_exactly_witness :
  buildArgs bareFormat = inl OutputFormatRequired /\
  kind OutputFormatRequired = ConfigurationError /\
  buildArgs empty = inl InputNotSpecified.
Proof.
  split; [|split].
  - reflexivity.
  - exact (proj1 (proj2 (proj2 (render_fails_exactly bareFormat)))
                 OutputFormatRequired eq_refl).
  - exact (proj1 (render_fails_exactly empty) eq_refl).
Defined.

(** C1 as stated fails: rendering can fail although the input file is
    set and the output arguments do hold the format flag. *)
Lemma render_fails_with_format_flag :
  buildArgs bareFormat = inl OutputFormatRequired /\
  inputFile bareFormat = Some "in.mp4" /\
  In "-f" (outputArgs bareFormat) /\
  ~ (inputFile bareFormat = None \/
     (inputFile bareFormat <> None /\ outputFile bareFormat = None /\
      ~ In "-f" (outputArgs bareFormat))).
Proof.
  split; [reflexivity|]. split; [reflexivity|].
  assert (Hin : In "-f" (outputArgs bareFormat)) by (simpl; auto).
  split; [exact Hin|].
  intros [H | (_ & _ & H)]; [discriminate|].
  exact (H Hin).
Qed.

(** C2.  Whenever [buildArgs] returns, the input file is set and the
    vector is the global arguments, the input arguments, ["-i"] and the
    input path, the output arguments, and last the output path when one
    is set, ["pipe:1"] otherwise.  With input [in.mp4], output arguments
    [-vframes 1 -f image2pipe] and no output file the vector ends in
    [-i in.mp4 -vframes 1 -f image2pipe pipe:1]. *)
Theorem render_concatenation (c : FfmpegCommand) (args : list string) :
  buildArgs c = inr args ->
  (exists inp,
      inputFile c = Some inp /\
      args = globalArgs c ++ inputArgs c ++ ["-i"; inp] ++ outputArgs c
               ++ [outputTarget c]) /\
  (forall out, outputFile c = Some out -> out <> "" ->
               outputTarget c = out) /\
  (outputFile c = None -> outputTarget c = "pipe:1") /\
  (forall g i,
      buildArgs (outputFormat "image2pipe"
                   (frames 1 (input "in.mp4" (mkCommand g i [] None None))))
      = inr ((g ++ i) ++
             ["-i"; "in.mp4"; "-vframes"; "1"; "-f"; "image2pipe";
              "pipe:1"])).
Proof.
  rewrite buildArgs_cases.
  destruct (truthy (inputFile c)) eqn:Hin; [|discriminate].
  destruct (truthy (outputFile c) || hasFormat c); [|discriminate].
  intros H. injection H as <-.
  apply truthy_some in Hin as (inp & Hinp & _).
  split; [|split; [|split]].
  - exists inp. rewrite Hinp. split; reflexivity.
  - intros out Hout Hne. unfold outputTarget. rewrite Hout. simpl.
    destruct (String.eqb_spec out ""); [contradiction|reflexivity].
  - intros Hout. unfold outputTarget. rewrite Hout. reflexivity.
  - intros g i. rewrite buildArgs_cases. simpl.
    now rewrite <- app_assoc.
Qed.

Lemma render_concatenation_witness :
  buildArgs snapshot
  = inr ["-i"; "in.mp4"; "-vframes"; "1"; "-f"; "image2pipe"; "pipe:1"] /\
  outputTarget snapshot = "pipe:1".
Proof.
  split; [reflexivity|].
  exact (proj1 (proj2 (proj2
           (render_concatenation snapshot _ eq_refl))) eq_refl).
Defined.

(** C9.  With an input file set and no output file set, the format check
    holds exactly when some ["-f"] of the output arguments is followed by
    a further token; when ["-f"] occurs only as the last output argument,
    rendering fails with a ConfigurationError and returns no vector. *)
Theorem format_flag_needs_value (c : FfmpegCommand) :
  truthy (inputFile c) = true ->
  truthy (outputFile c) = false ->
  (hasFormat c = true <-> followedFormat (outputArgs c)) /\
  (buildArgs c = inl OutputFormatRequired <->
   ~ followedFormat (outputArgs c)) /\
  (formatOnlyLast (outputArgs c) ->
   buildArgs c = inl OutputFormatRequired /\
   kind OutputFormatRequired = ConfigurationError /\
   forall args, buildArgs c <> inr args).
Proof.
  intros Hin Hout. rewrite buildArgs_cases, Hin, Hout. simpl.
  split; [apply hasFormat_followed|]. split.
  - rewrite <- hasFormat_false.
    destruct (hasFormat c); split; intros H; try reflexivity;
      discriminate.
  - intros Hl. apply onlyLast_not_followed, hasFormat_false in Hl.
    rewrite Hl. repeat split. intros args. discriminate.
Qed.

Lemma format_flag_needs_value_witness :
  outputArgs danglingFormat = ["-vframes"; "1"; "-f"] /\
  buildArgs danglingFormat = inl OutputFormatRequired.
Proof.
  split; [reflexivity|].
  refine (proj1 (proj2 (proj2
            (format_flag_needs_value danglingFormat eq_refl eq_refl)) _)).
  intros [|[|[|i]]] H; simpl in H; try discriminate; try reflexivity.
  destruct i; discriminate.
Defined.

End CommandSpec.

(** * Properties of the process runner *)

Module RunnerSpec.

Import Runner Examples.

Lemma append_nil_r (s : string) : (s ++ "")%string = s.
Proof. induction s; simpl; congruence. Qed.

Lemma append_assoc (a b c : string) :
  ((a ++ b) ++ c)%string = (a ++ (b ++ c))%string.
Proof. induction a; simpl; congruence. Qed.

(** An item that contains the separator splits in at least two parts, so
    the destructuring in [parseItem] finds a key and a value. *)
Lemma split_includes (s : string) (c : ascii) :
  includes s c = true ->
  exists key value rest, split s c = key :: value :: rest.
Proof.
  induction s as [|d s IH]; simpl; [discriminate|].
  destruct (Ascii.eqb d c) eqn:E; simpl.
  - intros _. destruct s as [|e s]; simpl.
    + eauto.
    + destruct (Ascii.eqb e c); [eauto|].
      destruct (split s c); eauto.
  - intros H. destruct (IH H) as (k & v & r & ->). eauto.
Qed.

Lemma parseItem_time (p : ProgressData) (item : string) :
  keyOf item <> "time" -> time (parseItem p item) = time p.
Proof.
  unfold keyOf, parseItem. intros Hk.
  destruct (split item "=") as [|k [|v r]]; simpl in *; try reflexivity.
  destruct p as [fr fp qu sz tm br sp rw].
  repeat match goal with
         | |- context [if ?b then _ else _] =>
             let E := fresh "E" in destruct b eqn:E
         end; try reflexivity.
  apply String.eqb_eq in E3. contradiction.
Qed.

Lemma fold_parseItem_time (l : list string) :
  forall p,
    (forall item, In item l -> keyOf item <> "time") ->
    time (fold_left parseItem l p) = time p.
Proof.
  induction l as [|item l IH]; intros p H; simpl; [reflexivity|].
  rewrite IH by (intros i Hi; apply H; right; exact Hi).
  apply parseItem_time, H. left. reflexivity.
Qed.

(** A line that does not begin with the frame-count prefix gives no
    sample. *)
Lemma parseProgress_prefix (line : string) :
  startsWith line "frame=" = false -> parseProgress line = None.
Proof. unfold parseProgress. intros ->. reflexivity. Qed.

(** A line none of whose items has the key [time] gives no sample. *)
Lemma parseProgress_no_time (line : string) :
  (forall item, In item (items line) -> keyOf item <> "time") ->
  parseProgress line = None.
Proof.
  intros H. unfold parseProgress.
  destruct (negb (startsWith line "frame=")); [reflexivity|].
  rewrite fold_parseItem_time by exact H. reflexivity.
Qed.

(** On a line whose values are not padded the frame count is read. *)
Lemma parseProgress_unpadded :
  option_map frame
    (parseProgress unpaddedLine)
  = Some (Some (Fin (inject_Z 120))).
Proof. reflexivity. Qed.

(** C4.  On the specification's progress line, whose values are padded
    with spaces as ffmpeg prints them, [parseProgress] gives a sample
    with fps 25 and time 00:00:04.80, but its frame count is NaN rather
    than 120 (and its size and bitrate are empty): the line is split at
    every space before the keys and values are paired. *)
Theorem parseProgress_sampleLine :
  parseProgress sampleLine
  = Some (mkProgress (Some NaN) (Some (Fin (inject_Z 25)))
                     (Some (Fin (inject_Z 23))) (Some "")
                     (Some "00:00:04.80") (Some "") (Some "0.98x")
                     sampleLine) /\
  option_map frame (parseProgress sampleLine)
  <> Some (Some (Fin (inject_Z 120))).
Proof. split; [reflexivity|discriminate]. Qed.

Lemma emitLine_not_terminal (line : string) :
  filter terminal (emitLine line) = [].
Proof. unfold emitLine. destruct (parseProgress line); reflexivity. Qed.

Lemma lines_not_terminal (lines : list string) :
  filter terminal (flat_map emitLine lines) = [].
Proof.
  induction lines as [|l ls IH]; simpl; [reflexivity|].
  now rewrite filter_app, emitLine_not_terminal, IH.
Qed.

(** While only data arrives the promise stays as it is, no terminal
    notification is emitted, and the chunks and the stderr text grow by
    what the events carry. *)
Lemma handle_data (data : list ChildEvent) :
  Forall isData data ->
  forall s,
    promise (fold_left handle data s) = promise s /\
    filter terminal (emitted (fold_left handle data s))
    = filter terminal (emitted s) /\
    List.concat (stdoutChunks (fold_left handle data s))
    = List.concat (stdoutChunks s) ++ stdoutOf data /\
    stderrText (fold_left handle data s)
    = (stderrText s ++ stderrOf data)%string.
Proof.
  induction 1 as [|ev data Hev _ IH]; intros s; simpl.
  - now rewrite app_nil_r, append_nil_r.
  - destruct (IH (handle s ev)) as (Hp & He & Hc & Ht).
    rewrite Hp, He, Hc, Ht.
    destruct ev as [chunk|chunk|code|err]; simpl in *; try contradiction.
    + rewrite concat_app. simpl. now rewrite app_nil_r, <- app_assoc.
    + rewrite filter_app, lines_not_terminal, app_nil_r, append_assoc.
      auto.
Qed.

(** Once the promise is settled, no later event changes it. *)
Lemma handle_settled (events : list ChildEvent) :
  forall s v,
    promise s = Some v -> promise (fold_left handle events s) = Some v.
Proof.
  induction events as [|ev events IH]; intros s v Hs; simpl;
    [exact Hs|].
  apply IH.
  destruct ev as [chunk|chunk|[[| |]|]|err]; simpl; rewrite ?Hs;
    reflexivity.
Qed.



End RunnerSpec.

(** * Properties of the frame sampler *)

Module SamplerSpec.

Import Command Runner Sampler Examples.
Local Open Scope Q_scope.

Lemma range_succ (n : nat) : range (S n) = range n ++ [Z.of_nat n].
Proof. unfold range. now rewrite seq_S, map_app. Qed.

Lemma in_range (n : nat) (x : Z) :
  In x (range n) <-> (0 <= x < Z.of_nat n)%Z.
Proof.
  unfold range. rewrite in_map_iff. split.
  - intros (i & <- & Hi). apply in_seq in Hi. lia.
  - intros H. exists (Z.to_nat x). split; [lia|]. apply in_seq. lia.
Qed.


(** A loop whose condition holds for exactly the first [count] values of
    the counter pushes the body at those values, given the fuel. *)
Lemma forLoop_count (cond : Z -> bool) (body : Z -> Z) (count : nat) :
  (forall i, (0 <= i < Z.of_nat count)%Z -> cond i = true) ->
  cond (Z.of_nat count) = false ->
  forall fuel, (count < fuel)%nat ->
  forLoop fuel cond body 0%Z [] = Some (map body (range count)).
Proof.
  intros Htrue Hfalse.
  assert (H : forall k fuel acc,
             (k <= count)%nat -> (k < fuel)%nat ->
             forLoop fuel cond body (Z.of_nat (count - k)) acc
             = Some (acc ++ map body
                       (map (fun j => Z.of_nat (count - k + j))
                            (seq 0 k)))).
  { induction k as [|k IH]; intros fuel acc Hk Hf;
      (destruct fuel as [|fuel]; [lia|]); simpl.
    - rewrite Nat.sub_0_r, Hfalse, app_nil_r. reflexivity.
    - rewrite Htrue by lia.
      replace (Z.of_nat (count - S k) + 1)%Z with (Z.of_nat (count - k))
        by lia.
      rewrite IH by lia. rewrite <- app_assoc. simpl.
      rewrite Nat.add_0_r. do 3 f_equal.
      rewrite <- seq_shift, !map_map.
      apply map_ext_in. intros j _. do 2 f_equal. lia. }
  intros fuel Hf. specialize (H count fuel [] (Nat.le_refl _) Hf).
  rewrite Nat.sub_diag in H. simpl in H. rewrite H. reflexivity.
Qed.





Lemma fold_setAdd_fresh (l : list Z) :
  forall s, NoDup (s ++ l) -> fold_left setAdd l s = s ++ l.
Proof.
  induction l as [|x l IH]; intros s Hs; simpl; [now rewrite app_nil_r|].
  assert (Hx : existsb (Z.eqb x) s = false).
  { destruct (existsb (Z.eqb x) s) eqn:E; [|reflexivity].
    apply existsb_exists in E as (z & Hz & Hxz).
    apply Z.eqb_eq in Hxz. subst z.
    apply NoDup_remove_2 in Hs. contradiction Hs.
    apply in_app_iff. auto. }
  unfold setAdd at 2. rewrite Hx.
  rewrite IH; rewrite <- app_assoc; simpl; [reflexivity|assumption].
Qed.



Lemma newSet_fresh (l : list Z) : NoDup l -> newSet l = l.
Proof. intros H. unfold newSet. now rewrite fold_setAdd_fresh. Qed.


Lemma Qmin_above (n : Q) (T : Z) :
  inject_Z T < n -> Qmin n (inject_Z T) = inject_Z T.
Proof.
  intros H. unfold Qmin, GenericMinMax.gmin.
  apply Qgt_alt in H. now rewrite H.
Qed.

Lemma Qltb_lt (a b : Q) : Qltb a b = true <-> a < b.
Proof.
  unfold Qltb. rewrite negb_true_iff. split.
  - intros H. apply Qnot_le_lt. intros Hle.
    apply Qle_bool_iff in Hle. congruence.
  - intros H. destruct (Qle_bool b a) eqn:E; [|reflexivity].
    apply Qle_bool_iff in E. now apply Qlt_not_le in H.
Qed.

Lemma Qltb_ge (a b : Q) : Qltb a b = false <-> b <= a.
Proof.
  unfold Qltb. rewrite negb_false_iff. apply Qle_bool_iff.
Qed.

Lemma truthyNum_pos (x : Q) : 0 < x -> truthyNum (Some x) = true.
Proof.
  intros H. simpl. apply negb_true_iff.
  destruct (Qeq_bool x 0) eqn:E; [|reflexivity].
  apply Qeq_bool_iff in E. rewrite E in H. now apply Qlt_irrefl in H.
Qed.

Lemma centred_floor (T m i : Z) :
  (0 < m)%Z ->
  Qfloor (inject_Z i * (inject_Z T / inject_Z m)
          + inject_Z T / inject_Z m / 2)
  = centredIndex T m i.
Proof.
  intros Hm. unfold centredIndex. rewrite Zdiv_Qdiv.
  apply Qfloor_comp.
  rewrite !inject_Z_mult, inject_Z_plus, inject_Z_mult.
  assert (~ inject_Z m == 0).
  { intros E. apply (inject_Z_injective m 0) in E. lia. }
  change (inject_Z 2) with 2. change (inject_Z 1) with 1. field.
  assumption.
Qed.


Lemma centred_step (T m i : Z) :
  (0 < m <= T)%Z ->
  (centredIndex T m i < centredIndex T m (i + 1))%Z.
Proof.
  intros Hm. unfold centredIndex.
  assert (H : ((2 * i + 1) * T / (2 * m) + 1
               <= (2 * (i + 1) + 1) * T / (2 * m))%Z); [|lia].
  rewrite <- (Z.div_add _ 1 (2 * m)) by lia.
  apply Z.div_le_mono; nia.
Qed.

Lemma centred_increasing (T m : Z) :
  (0 < m <= T)%Z ->
  forall i j, (i < j)%Z -> (centredIndex T m i < centredIndex T m j)%Z.
Proof.
  intros Hm i j Hij.
  replace j with (i + 1 + Z.of_nat (Z.to_nat (j - i - 1)))%Z by lia.
  induction (Z.to_nat (j - i - 1)) as [|k IH].
  - rewrite Z.add_0_r. now apply centred_step.
  - eapply Z.lt_trans; [exact IH|].
    replace (i + 1 + Z.of_nat (S k))%Z with (i + 1 + Z.of_nat k + 1)%Z
      by lia.
    now apply centred_step.
Qed.

Lemma centred_identity (T i : Z) :
  (0 < T)%Z -> centredIndex T T i = i.
Proof.
  intros HT. unfold centredIndex.
  replace ((2 * i + 1) * T)%Z with (T + i * (2 * T))%Z by lia.
  rewrite Z.div_add by lia. rewrite Z.div_small; lia.
Qed.

Lemma range_NoDup (n : nat) : NoDup (range n).
Proof.
  unfold range. apply Injective_map_NoDup; [|apply seq_NoDup].
  intros a b. apply Nat2Z.inj.
Qed.

Lemma map_increasing_NoDup (f : Z -> Z) (l : list Z) :
  (forall i j, (i < j)%Z -> (f i < f j)%Z) ->
  NoDup l -> NoDup (map f l).
Proof.
  intros Hf. apply Injective_map_NoDup.
  intros a b Hab.
  destruct (Z.lt_trichotomy a b) as [H | [H | H]]; [|assumption|];
    apply Hf in H; lia.
Qed.

(** Sampling by total count when the number of frames to extract is the
    integer [m]. *)
Lemma byTotalCount (this : VideoFrameExtractor) (n : Q)
      (o : option Q) (m : Z) (fuel : nat) :
  0 < n ->
  Qmin n (inject_Z (totalFrames this)) = inject_Z m ->
  (0 < m <= totalFrames this)%Z ->
  (Z.to_nat m < fuel)%nat ->
  calculateFrameIndices fuel this (ExtractFramesOptions.make (Some n) o)
  = Some (map (centredIndex (totalFrames this) m) (range (Z.to_nat m))).
Proof.
  intros Hn Hmin Hm Hfuel. unfold calculateFrameIndices.
  cbn [ExtractFramesOptions.totalFrames ExtractFramesOptions.fps numOf].
  rewrite (truthyNum_pos n Hn), Hmin.
  rewrite (forLoop_count _ _ (Z.to_nat m)); try assumption.
  - simpl. f_equal.
    rewrite newSet_fresh.
    + apply map_ext_in. intros i Hi. now apply centred_floor.
    + erewrite map_ext_in.
      * apply (map_increasing_NoDup (centredIndex (totalFrames this) m));
          [now apply centred_increasing|apply range_NoDup].
      * intros i Hi. now apply centred_floor.
  - intros i Hi. apply Qltb_lt. rewrite <- Zlt_Qlt. lia.
  - apply Qltb_ge. rewrite <- Zle_Qle. lia.
Qed.



(** C10.  For an extractor with a positive total frame count [T] and a
    requested count above [T], sampling by total count clamps the request
    to [T] and returns exactly the indices [0], [1], ..., [T - 1], each
    once. *)
Theorem sample_more_than_available (this : VideoFrameExtractor) (n : Q)
        (rate : option Q) (fuel : nat) :
  (0 < totalFrames this)%Z ->
  inject_Z (totalFrames this) < n ->
  (Z.to_nat (totalFrames this) < fuel)%nat ->
  calculateFrameIndices fuel this (ExtractFramesOptions.make (Some n) rate)
  = Some (range (Z.to_nat (totalFrames this))) /\
  NoDup (range (Z.to_nat (totalFrames this))) /\
  (forall x, In x (range (Z.to_nat (totalFrames this)))
             <-> (0 <= x < totalFrames this)%Z).
Proof.
  intros HT Hn Hfuel. split; [|split].
  - rewrite (byTotalCount this n rate (totalFrames this) fuel);
      try assumption; try lia.
    + f_equal. rewrite <- (map_id (range _)) at 2.
      apply map_ext. intros i. now apply centred_identity.
    + eapply Qlt_trans; [|exact Hn].
      change 0 with (inject_Z 0). rewrite <- Zlt_Qlt. lia.
    + now apply Qmin_above.
  - apply range_NoDup.
  - intros x. rewrite in_range. lia.
Qed.

Lemma sample_more_than_available_witness :
  calculateFrameIndices 5 fourFrames
    (ExtractFramesOptions.make (Some 10) None) = Some [0; 1; 2; 3]%Z.
Proof.
  refine (proj1 (sample_more_than_available fourFrames 10 None 5 _ _ _)).
  - reflexivity.
  - reflexivity.
  - apply Nat.ltb_lt. reflexivity.
Defined.











(** C7.  For a target time [t >= 0] and the keyframe-interval estimate
    [k] of the extractor, the coarse seek time is [max(0, t - k)] and the
    precise offset is [t] minus the coarse seek time: [t - k] and [k] when
    [k <= t], [0] and [t] when [t <= k]; for [k = 5] they are 5 and 5 at
    [t = 10], and 0 and 2 at [t = 2]. *)
Theorem dual_seek (this : VideoFrameExtractor) (t : Q) :
  0 <= t ->
  coarseSeekTime this t = Qmax 0 (t - keyframeIntervalSeconds this) /\
  preciseSeekOffset this t = t - coarseSeekTime this t /\
  0 <= coarseSeekTime this t /\
  (keyframeIntervalSeconds this <= t ->
   coarseSeekTime this t == t - keyframeIntervalSeconds this /\
   preciseSeekOffset this t == keyframeIntervalSeconds this) /\
  (t <= keyframeIntervalSeconds this ->
   coarseSeekTime this t == 0 /\ preciseSeekOffset this t == t) /\
  (keyframeIntervalSeconds this == 5 -> t == 10 ->
   coarseSeekTime this t == 5 /\ preciseSeekOffset this t == 5) /\
  (keyframeIntervalSeconds this == 5 -> t == 2 ->
   coarseSeekTime this t == 0 /\ preciseSeekOffset this t == 2).
Proof.
  intros Ht.
  assert (Hhigh : keyframeIntervalSeconds this <= t ->
                  coarseSeekTime this t == t - keyframeIntervalSeconds this /\
                  preciseSeekOffset this t == keyframeIntervalSeconds this).
  { intros Hk. unfold preciseSeekOffset, coarseSeekTime.
    assert (E : Qmax 0 (t - keyframeIntervalSeconds this)
                == t - keyframeIntervalSeconds this).
    { apply Q.max_r. rewrite <- (Qplus_opp_r (keyframeIntervalSeconds this)).
      apply Qplus_le_compat; [assumption|apply Qle_refl]. }
    split; [exact E|]. rewrite E. ring. }
  assert (Hlow : t <= keyframeIntervalSeconds this ->
                 coarseSeekTime this t == 0 /\ preciseSeekOffset this t == t).
  { intros Hk. unfold preciseSeekOffset, coarseSeekTime.
    assert (E : Qmax 0 (t - keyframeIntervalSeconds this) == 0).
    { apply Q.max_l. rewrite <- (Qplus_opp_r (keyframeIntervalSeconds this)).
      apply Qplus_le_compat; [assumption|apply Qle_refl]. }
    split; [exact E|]. rewrite E. ring. }
  split; [reflexivity|]. split; [reflexivity|].
  split; [apply Q.le_max_l|].
  split; [exact Hhigh|]. split; [exact Hlow|]. split.
  - intros Hk Ht10.
    destruct Hhigh as [Hc Hp]; [rewrite Hk, Ht10; discriminate|].
    rewrite Hc, Hp, Hk, Ht10. split; reflexivity.
  - intros Hk Ht2.
    destruct Hlow as [Hc Hp]; [rewrite Hk, Ht2; discriminate|].
    rewrite Hc, Hp, Ht2. split; reflexivity.
Qed.

Lemma dual_seek_witness :
  coarseSeekTime fourFrames 10 == 5 /\ preciseSeekOffset fourFrames 10 == 5 /\
  coarseSeekTime fourFrames 2 == 0 /\ preciseSeekOffset fourFrames 2 == 2.
Proof.
  assert (H10 : 0 <= 10) by discriminate.
  assert (H2 : 0 <= 2) by discriminate.
  assert (Hk : keyframeIntervalSeconds fourFrames == 5) by reflexivity.
  destruct (dual_seek fourFrames 10 H10) as (_ & _ & _ & _ & _ & Ha & _).
  destruct (dual_seek fourFrames 2 H2) as (_ & _ & _ & _ & _ & _ & Hb).
  destruct (Ha Hk (Qeq_refl _)) as [A1 A2].
  destruct (Hb Hk (Qeq_refl _)) as [B1 B2].
  repeat split; assumption.
Defined.










End SamplerSpec.

(** * Further properties: the operator table *)

Module OperatorSpec.

Import Command Runner Operators.

Lemma extends_refl (l : list string) : extends l l.
Proof. exists []. now rewrite app_nil_r. Qed.

Lemma extends_trans (a b c : list string) :
  extends a b -> extends b c -> extends a c.
Proof.
  intros [x ->] [y ->]. exists (x ++ y). now rewrite app_assoc.
Qed.

Lemma pushOption_extends (args : list string) (key : string)
      (value : option OptValue) :
  extends args (pushOption args key value) /\
  (List.length (pushOption args key value) <= List.length args + 2)%nat.
Proof.
  destruct value as [v|]; simpl.
  - split; [exists [key; String_ v]; now rewrite <- app_assoc|].
    rewrite !length_app. simpl. lia.
  - split; [exists [key]; reflexivity|].
    rewrite length_app. simpl. lia.
Qed.

(** What one call does to the three lists. *)
Lemma run_extends (call : Call) (c : FfmpegCommand) :
  extends (globalArgs c) (globalArgs (run call c)) /\
  extends (inputArgs c) (inputArgs (run call c)) /\
  extends (outputArgs c) (outputArgs (run call c)) /\
  (List.length (globalArgs (run call c))
   + List.length (inputArgs (run call c))
   + List.length (outputArgs (run call c))
   <= List.length (globalArgs c) + List.length (inputArgs c)
      + List.length (outputArgs c) + 2)%nat.
Proof.
  destruct call; cbn -[pushOption];
    repeat match goal with
           | |- context [pushOption ?a ?k ?v] =>
               let H := fresh in
               destruct (pushOption_extends a k v) as [? H];
               generalize dependent (pushOption a k v); intros
           end;
    repeat split; try apply extends_refl; try assumption; lia.
Qed.

(** A call leaves every field but its target as it was. *)
Lemma run_target (call : Call) (c : FfmpegCommand) :
  (target call <> FGlobalArgs -> globalArgs (run call c) = globalArgs c) /\
  (target call <> FInputArgs -> inputArgs (run call c) = inputArgs c) /\
  (target call <> FOutputArgs -> outputArgs (run call c) = outputArgs c) /\
  (target call <> FInputFile -> inputFile (run call c) = inputFile c) /\
  (target call <> FOutputFile -> outputFile (run call c) = outputFile c).
Proof.
  destruct call; cbn; repeat split; intros H; try reflexivity;
    contradiction H; reflexivity.
Qed.

(** What a sequence of calls does to the three lists. *)
Lemma runAll_extends (calls : list Call) (c : FfmpegCommand) :
  extends (globalArgs c) (globalArgs (runAll calls c)) /\
  extends (inputArgs c) (inputArgs (runAll calls c)) /\
  extends (outputArgs c) (outputArgs (runAll calls c)) /\
  (List.length (globalArgs (runAll calls c))
   + List.length (inputArgs (runAll calls c))
   + List.length (outputArgs (runAll calls c))
   <= List.length (globalArgs c) + List.length (inputArgs c)
      + List.length (outputArgs c) + 2 * List.length calls)%nat.
Proof.
  revert c. induction calls as [|call calls IH]; intros c.
  - cbn. repeat split; try apply extends_refl. lia.
  - change (runAll (call :: calls) c) with (runAll calls (run call c)).
    destruct (IH (run call c)) as (Hg & Hi & Ho & Hl).
    destruct (run_extends call c) as (Hg' & Hi' & Ho' & Hl').
    repeat split; try (eapply extends_trans; eassumption).
    cbn [List.length]. lia.
Qed.

(** No sequence of operator calls removes or reorders a token: each of
    the three lists keeps what it held as a prefix, and a call adds at
    most two tokens. *)
Theorem calls_only_append (calls : list Call) (c : FfmpegCommand) :
  extends (globalArgs c) (globalArgs (runAll calls c)) /\
  extends (inputArgs c) (inputArgs (runAll calls c)) /\
  extends (outputArgs c) (outputArgs (runAll calls c)) /\
  (List.length (globalArgs (runAll calls c))
   + List.length (inputArgs (runAll calls c))
   + List.length (outputArgs (runAll calls c))
   <= List.length (globalArgs c) + List.length (inputArgs c)
      + List.length (outputArgs c) + 2 * List.length calls)%nat.
Proof. apply runAll_extends. Qed.

(** Calls that write different fields commute. *)
Theorem independent_calls_commute (a b : Call) (c : FfmpegCommand) :
  target a <> target b ->
  run a (run b c) = run b (run a c).
Proof.
  intros H.
  destruct a; destruct b; try reflexivity; contradiction H; reflexivity.
Qed.

Lemma independent_calls_commute_witness :
  run (CDuration (VNum 10)) (run (CSeekInput (VStr "00:01:00")) empty)
  = run (CSeekInput (VStr "00:01:00")) (run (CDuration (VNum 10)) empty).
Proof.
  apply independent_calls_commute. discriminate.
Defined.

Lemma followed_extends (l l' : list string) :
  extends l l' -> followedFormat l -> followedFormat l'.
Proof.
  intros [added ->] (i & Hi & Hlt). exists i. split.
  - rewrite nth_error_app1 by lia. exact Hi.
  - rewrite length_app. lia.
Qed.

Lemma hasFormat_runAll (calls : list Call) (c : FfmpegCommand) :
  hasFormat c = true -> hasFormat (runAll calls c) = true.
Proof.
  rewrite !CommandSpec.hasFormat_followed.
  apply followed_extends. apply runAll_extends.
Qed.

(** Once the format check passes, no later call makes it fail. *)
Theorem format_check_stays (calls : list Call) (c : FfmpegCommand) :
  hasFormat c = true -> hasFormat (runAll calls c) = true.
Proof. apply hasFormat_runAll. Qed.

Lemma format_check_stays_witness :
  hasFormat (runAll [CNoAudio; CFrames 1] (outputFormat "mjpeg" empty))
  = true.
Proof. apply format_check_stays. reflexivity. Defined.

Lemma runAll_app (xs ys : list Call) (c : FfmpegCommand) :
  runAll (xs ++ ys) c = runAll ys (runAll xs c).
Proof. unfold runAll. apply fold_left_app. Qed.

Lemma outputFormat_followed (format : string) (c : FfmpegCommand) :
  followedFormat (outputArgs (outputFormat format c)).
Proof.
  exists (List.length (outputArgs c)). cbn.
  rewrite <- app_assoc. split.
  - rewrite nth_error_app2 by lia. now rewrite Nat.sub_diag.
  - rewrite length_app. cbn. lia.
Qed.

(** A callback that calls [outputFormat] somewhere passes the format
    check, whatever else it calls and whatever the state it starts from. *)
Theorem outputFormat_call_suffices (calls : list Call) (format : string)
        (c : FfmpegCommand) :
  In (COutputFormat format) calls ->
  hasFormat (runAll calls c) = true.
Proof.
  intros Hin. apply in_split in Hin as (before & after & ->).
  rewrite runAll_app.
  change (runAll (COutputFormat format :: after) (runAll before c))
    with (runAll after (outputFormat format (runAll before c))).
  apply hasFormat_runAll, CommandSpec.hasFormat_followed,
    outputFormat_followed.
Qed.

Lemma outputFormat_call_suffices_witness :
  hasFormat (runAll (extractCover "input1.mp4") empty) = true.
Proof.
  apply (outputFormat_call_suffices _ "image2pipe"). cbn. auto 10.
Defined.

Lemma pushOption_nonempty (args : list string) (key : string)
      (value : option OptValue) :
  exists added, pushOption args key value = args ++ added /\ added <> [].
Proof.
  destruct value as [v|]; simpl.
  - exists [key; String_ v]. split; [now rewrite <- app_assoc|discriminate].
  - exists [key]. split; [reflexivity|discriminate].
Qed.

(** The format check is positional: a ["-f"] added without a value
    passes it as soon as any call adds an output token after it, be that
    token a flag. *)
Theorem dangling_format_accepted (call : Call) (c : FfmpegCommand) :
  target call = FOutputArgs ->
  hasFormat (run call (addOutputOption "-f" None c)) = true.
Proof.
  intros Ht. apply CommandSpec.hasFormat_followed.
  assert (H : exists added,
             outputArgs (run call (addOutputOption "-f" None c))
             = (outputArgs c ++ ["-f"]) ++ added /\ added <> []).
  { destruct call; try discriminate; cbn -[pushOption];
      apply pushOption_nonempty. }
  destruct H as (added & -> & Hne).
  exists (List.length (outputArgs c)). split.
  - rewrite <- app_assoc, nth_error_app2 by lia.
    now rewrite Nat.sub_diag.
  - destruct added as [|tok added]; [contradiction|].
    rewrite !length_app. simpl List.length. lia.
Qed.

Lemma dangling_format_accepted_witness :
  buildArgs (run CNoAudio (addOutputOption "-f" None (input "in.mp4" empty)))
  = inr ["-i"; "in.mp4"; "-f"; "-an"; "pipe:1"] /\
  hasFormat (run CNoAudio (addOutputOption "-f" None (input "in.mp4" empty)))
  = true.
Proof.
  split; [reflexivity|].
  exact (dangling_format_accepted CNoAudio (input "in.mp4" empty) eq_refl).
Defined.

Lemma runAll_inputFile (calls : list Call) :
  forall c, (forall file, ~ In (CInput file) calls) ->
            inputFile (runAll calls c) = inputFile c.
Proof.
  induction calls as [|call calls IH]; intros c H; [reflexivity|].
  change (runAll (call :: calls) c) with (runAll calls (run call c)).
  rewrite IH by (intros f Hf; apply (H f); right; exact Hf).
  apply run_target. intros Ht.
  destruct call; try discriminate. apply (H file). left. reflexivity.
Qed.

Lemma runAll_outputFile (calls : list Call) :
  forall c, (forall file, ~ In (COutput file) calls) ->
            outputFile (runAll calls c) = outputFile c.
Proof.
  induction calls as [|call calls IH]; intros c H; [reflexivity|].
  change (runAll (call :: calls) c) with (runAll calls (run call c)).
  rewrite IH by (intros f Hf; apply (H f); right; exact Hf).
  apply run_target. intros Ht.
  destruct call; try discriminate. apply (H file). left. reflexivity.
Qed.

(** A callback that never calls [input] cannot be rendered: the
    orchestrator rejects with the missing-input error before anything is
    spawned, whatever the host would do. *)
Theorem no_input_call_rejects (calls : list Call)
        (resolvedFfmpegPath : string) (host : Host) :
  (forall file, ~ In (CInput file) calls) ->
  buildArgs (runAll calls empty) = inl InputNotSpecified /\
  executeFfmpeg (fun cmd => inr (runAll calls cmd)) resolvedFfmpegPath host
  = Some (inl InputNotSpecified).
Proof.
  intros H.
  assert (E : buildArgs (runAll calls empty) = inl InputNotSpecified).
  { rewrite CommandSpec.buildArgs_cases, runAll_inputFile by exact H.
    reflexivity. }
  split; [exact E|]. unfold executeFfmpeg, finalArgs. now rewrite E.
Qed.

Lemma no_input_call_rejects_witness :
  executeFfmpeg (fun cmd => inr (runAll versionDemo cmd)) "ffmpeg"
                (fun _ => Some [Close (Some 0%Z)])
  = Some (inl InputNotSpecified).
Proof.
  refine (proj2 (no_input_call_rejects versionDemo "ffmpeg" _ _)).
  intros file [H | []]. discriminate.
Defined.

(** The last [input] call and the last [output] call decide the two
    paths, whatever is called before, between and after them. *)
Theorem last_file_wins (earlier later : list Call) (file : string)
        (c : FfmpegCommand) :
  ((forall other, ~ In (CInput other) later) ->
   inputFile (runAll (earlier ++ CInput file :: later) c) = Some file) /\
  ((forall other, ~ In (COutput other) later) ->
   outputFile (runAll (earlier ++ COutput file :: later) c) = Some file).
Proof.
  split; intros H; rewrite runAll_app.
  - change (runAll (CInput file :: later) (runAll earlier c))
      with (runAll later (input file (runAll earlier c))).
    now rewrite runAll_inputFile.
  - change (runAll (COutput file :: later) (runAll earlier c))
      with (runAll later (Command.output file (runAll earlier c))).
    now rewrite runAll_outputFile.
Qed.

Lemma last_file_wins_witness :
  inputFile (runAll ([CInput "a.mp4"; CNoAudio]
                       ++ CInput "b.mp4" :: [COutputFormat "mjpeg"]) empty)
  = Some "b.mp4".
Proof.
  refine (proj1 (last_file_wins [CInput "a.mp4"; CNoAudio]
                   [COutputFormat "mjpeg"] "b.mp4" empty) _).
  intros other [H | []]. discriminate.
Defined.

End OperatorSpec.

(** * Further properties: the life of an invocation *)

Module LifecycleSpec.

Import Runner.

Lemma execute_fold (path : string) (args : list string)
      (events : list ChildEvent) :
  execute path args (Some events)
  = fold_left handle events (started path args).
Proof. reflexivity. Qed.

Lemma execute_snoc (path : string) (args : list string)
      (events : list ChildEvent) (ev : ChildEvent) :
  execute path args (Some (events ++ [ev]))
  = handle (execute path args (Some events)) ev.
Proof. rewrite !execute_fold, fold_left_app. reflexivity. Qed.

(** While the child only writes to its pipes the promise is pending and
    neither [end] nor [error] has been emitted. *)
Theorem pending_until_exit (resolvedFfmpegPath : string)
        (finalArgs : list string) (data : list ChildEvent) :
  Forall isData data ->
  promise (execute resolvedFfmpegPath finalArgs (Some data)) = None /\
  filter terminal (emitted (execute resolvedFfmpegPath finalArgs (Some data)))
  = [].
Proof.
  intros H. rewrite execute_fold.
  destruct (RunnerSpec.handle_data data H
              (started resolvedFfmpegPath finalArgs)) as (Hp & He & _).
  rewrite Hp, He. split; reflexivity.
Qed.

Lemma pending_until_exit_witness :
  promise (execute "ffmpeg" ["-i"; "in.mp4"; "out.mp4"]
                   (Some Examples.image500)) = None.
Proof.
  refine (proj1 (pending_until_exit _ _ Examples.image500 _)).
  repeat constructor.
Defined.

(** When the child reports an error and then closes, as a failed spawn
    does, the promise is rejected once, with the reported error, but two
    terminal notifications are emitted: [error] for the report, and for
    the close another [error], or [end] if the code is 0. *)
Theorem error_then_close (resolvedFfmpegPath : string)
        (finalArgs : list string) (data later : list ChildEvent)
        (err : string) (code : option Z) :
  Forall isData data ->
  promise (execute resolvedFfmpegPath finalArgs
                   (Some (data ++ ChildError err :: Close code :: later)))
  = Some (inl (ProcessError err)) /\
  filter terminal
         (emitted (execute resolvedFfmpegPath finalArgs
                           (Some (data ++ [ChildError err; Close code]))))
  = [ErrorEvent (ProcessError err) (stderrOf data); closing data code].
Proof.
  intros H. rewrite !execute_fold.
  destruct (RunnerSpec.handle_data data H
              (started resolvedFfmpegPath finalArgs))
    as (Hp & He & Hc & Ht).
  cbn in Hp, He, Hc, Ht. split.
  - rewrite fold_left_app. cbn [fold_left].
    apply RunnerSpec.handle_settled.
    destruct code as [[| |]|]; cbn; rewrite Hp; reflexivity.
  - rewrite fold_left_app. cbn [fold_left].
    unfold closing, resultOf.
    destruct code as [[| |]|]; cbn;
      rewrite !filter_app, He, ?Hc, ?Ht; reflexivity.
Qed.

Lemma error_then_close_witness :
  promise (execute "ffmpeg" ["-i"; "in.mp4"; "out.mp4"]
                   (Some ([] ++ [ChildError "spawn ffmpeg ENOENT";
                                 Close (Some (-2)%Z)])))
  = Some (inl (ProcessError "spawn ffmpeg ENOENT")).
Proof.
  exact (proj1 (error_then_close "ffmpeg" ["-i"; "in.mp4"; "out.mp4"]
                  [] [] "spawn ffmpeg ENOENT" (Some (-2)%Z)
                  (Forall_nil _))).
Defined.

Lemma handle_no_start (s : RunState) (ev : ChildEvent) :
  filter isStart (emitted (handle s ev)) = filter isStart (emitted s).
Proof.
  destruct ev as [chunk|chunk|[[| |]|]|err]; cbn;
    rewrite ?filter_app; cbn; rewrite ?app_nil_r; try reflexivity.
  assert (H : forall ls, filter isStart (flat_map emitLine ls) = []).
  { induction ls as [|l ls IH]; cbn; [reflexivity|].
    rewrite filter_app, IH, app_nil_r. unfold emitLine.
    destruct (parseProgress l); reflexivity. }
  now rewrite H, app_nil_r.
Qed.

Lemma handle_keeps_head (s : RunState) (ev : ChildEvent) (n : Notification)
      (rest : list Notification) :
  emitted s = n :: rest ->
  exists rest', emitted (handle s ev) = n :: rest'.
Proof.
  intros E.
  destruct ev as [chunk|chunk|[[| |]|]|err]; cbn; rewrite E; cbn; eauto.
Qed.

(** [start] is emitted exactly once, first, and carries the executable
    path and the arguments joined by single spaces. *)
Theorem start_emitted_once_first (resolvedFfmpegPath : string)
        (finalArgs : list string) (child : option (list ChildEvent)) :
  let command :=
    (resolvedFfmpegPath ++ " " ++ String.concat " " finalArgs)%string in
  (exists rest,
      emitted (execute resolvedFfmpegPath finalArgs child)
      = Start command :: rest) /\
  filter isStart (emitted (execute resolvedFfmpegPath finalArgs child))
  = [Start command].
Proof.
  intros command. destruct child as [events|]; [|cbn; eauto].
  rewrite execute_fold.
  assert (H : forall evs s rest,
             emitted s = Start command :: rest ->
             filter isStart (emitted s) = [Start command] ->
             (exists rest', emitted (fold_left handle evs s)
                            = Start command :: rest') /\
             filter isStart (emitted (fold_left handle evs s))
             = [Start command]).
  { induction evs as [|ev evs IH]; intros s rest E F; cbn; [eauto|].
    destruct (handle_keeps_head s ev _ _ E) as [rest' E'].
    apply (IH _ rest' E'). now rewrite handle_no_start. }
  apply (H events _ []); reflexivity.
Qed.

End LifecycleSpec.

(** * Further properties: stderr lines *)

Module LineSpec.

Import Runner LifecycleSpec.

Lemma splitLines_nonempty (s : string) : splitLines s <> [].
Proof.
  induction s as [|c s IH]; cbn; [discriminate|].
  destruct (Ascii.eqb c "013").
  - destruct s as [|d s']; [discriminate|].
    destruct (Ascii.eqb d "010"); discriminate.
  - destruct (Ascii.eqb c "010"); [discriminate|].
    destruct (splitLines s); discriminate.
Qed.

(** No line that [splitLines] gives holds a terminator. *)
Lemma splitLines_clean (s : string) :
  Forall (fun l => hasNewline l = false) (splitLines s).
Proof.
  assert (H : forall n s, (String.length s <= n)%nat ->
                          Forall (fun l => hasNewline l = false)
                                 (splitLines s)).
  { induction n as [|n IH]; intros [|c r] Hlen; cbn in *;
      try (repeat constructor; fail); try lia.
    destruct (Ascii.eqb c "013") eqn:Ecr.
    - destruct r as [|d r'].
      + repeat constructor.
      + destruct (Ascii.eqb d "010"); constructor; try reflexivity;
          apply IH; cbn in *; lia.
    - destruct (Ascii.eqb c "010") eqn:Elf.
      + constructor; [reflexivity|]. apply IH. lia.
      + specialize (IH r ltac:(lia)).
        destruct (splitLines r) as [|h t]; [repeat constructor|].
        * cbn. unfold CR, LF. now rewrite Ecr, Elf.
        * inversion IH; subst. constructor; [|assumption].
          cbn. unfold CR, LF. now rewrite Ecr, Elf. }
  apply (H (String.length s)). lia.
Qed.

Lemma splitLines_plain (s : string) :
  hasNewline s = false -> splitLines s = [s].
Proof.
  induction s as [|c s IH]; cbn; [reflexivity|].
  unfold CR, LF. intros H.
  apply orb_false_iff in H as [H Hs].
  apply orb_false_iff in H as [Hcr Hlf].
  rewrite Hcr, Hlf, (IH Hs). reflexivity.
Qed.

(** A terminator-free text followed by LF is one line. *)
Lemma splitLines_lf (a r : string) :
  hasNewline a = false ->
  splitLines (a ++ String LF r) = a :: splitLines r.
Proof.
  induction a as [|c a IH]; cbn; [reflexivity|].
  unfold CR, LF. intros H.
  apply orb_false_iff in H as [H Ha].
  apply orb_false_iff in H as [Hcr Hlf].
  rewrite Hcr, Hlf. unfold LF in IH. rewrite (IH Ha). reflexivity.
Qed.

(** A terminator-free text followed by CR is one line; a LF right after
    the CR belongs to the same terminator. *)
Lemma splitLines_cr (a r : string) :
  hasNewline a = false ->
  splitLines (a ++ String CR r)
  = a :: match r with
         | String d r' => if Ascii.eqb d LF then splitLines r'
                          else splitLines r
         | EmptyString => splitLines r
         end.
Proof.
  induction a as [|c a IH]; cbn.
  - intros _. destruct r as [|d r']; [reflexivity|].
    unfold LF. destruct (Ascii.eqb d "010"); reflexivity.
  - unfold CR, LF. intros H.
    apply orb_false_iff in H as [H Ha].
    apply orb_false_iff in H as [Hcr Hlf].
    rewrite Hcr, Hlf. unfold CR, LF in IH. rewrite (IH Ha). reflexivity.
Qed.

Lemma hasNewline_app (a b : string) :
  hasNewline (a ++ b) = hasNewline a || hasNewline b.
Proof.
  induction a as [|c a IH]; cbn; [reflexivity|].
  rewrite IH. now rewrite !orb_assoc.
Qed.

Lemma last_clean (ls : list string) :
  Forall (fun l => hasNewline l = false) ls ->
  hasNewline (last ls "") = false.
Proof.
  induction 1 as [|l ls Hl _ IH]; [reflexivity|].
  destruct ls; [exact Hl|exact IH].
Qed.

Lemma removelast_clean (ls : list string) :
  Forall (fun l => hasNewline l = false) ls ->
  Forall (fun l => hasNewline l = false) (removelast ls).
Proof.
  induction 1 as [|l ls Hl Hls IH]; [constructor|].
  cbn. destruct ls; [constructor|]. constructor; assumption.
Qed.

Lemma stderrLines_app (a b : list Notification) :
  stderrLines (a ++ b) = stderrLines a ++ stderrLines b.
Proof.
  induction a as [|n a IH]; cbn; [reflexivity|].
  destruct n; cbn; now rewrite IH.
Qed.

Lemma stderrLines_emit (ls : list string) :
  stderrLines (flat_map emitLine ls) = ls.
Proof.
  induction ls as [|l ls IH]; cbn; [reflexivity|].
  rewrite stderrLines_app, IH. unfold emitLine.
  destruct (parseProgress l); reflexivity.
Qed.

Lemma run_clean (resolvedFfmpegPath : string)
        (finalArgs : list string) (events : list ChildEvent) :
  hasNewline (stderrBuffer (execute resolvedFfmpegPath finalArgs
                                    (Some events))) = false /\
  Forall (fun l => hasNewline l = false)
         (stderrLines (emitted (execute resolvedFfmpegPath finalArgs
                                        (Some events)))).
Proof.
  rewrite execute_fold.
  assert (H : forall evs s,
             hasNewline (stderrBuffer s) = false ->
             Forall (fun l => hasNewline l = false)
                    (stderrLines (emitted s)) ->
             hasNewline (stderrBuffer (fold_left handle evs s)) = false /\
             Forall (fun l => hasNewline l = false)
                    (stderrLines (emitted (fold_left handle evs s)))).
  { induction evs as [|ev evs IH]; intros s Hb He; cbn; [auto|].
    apply IH.
    - destruct ev as [chunk|chunk|[[| |]|]|err]; cbn; try exact Hb.
      apply last_clean, splitLines_clean.
    - destruct ev as [chunk|chunk|[[| |]|]|err]; cbn;
        rewrite ?stderrLines_app; cbn; rewrite ?app_nil_r;
        try exact He.
      rewrite stderrLines_emit. apply Forall_app. split; [exact He|].
      apply removelast_clean, splitLines_clean. }
  apply H; [reflexivity|constructor].
Qed.

(** Whatever the child delivers, the text held back for the next chunk
    holds no line terminator, and neither does any line notified. *)
Theorem lines_hold_no_terminator (resolvedFfmpegPath : string)
        (finalArgs : list string) (events : list ChildEvent) :
  hasNewline (stderrBuffer (execute resolvedFfmpegPath finalArgs
                                    (Some events))) = false /\
  Forall (fun l => hasNewline l = false)
         (stderrLines (emitted (execute resolvedFfmpegPath finalArgs
                                        (Some events)))).
Proof. apply run_clean. Qed.

Lemma notified_snoc (path : string) (args : list string)
      (events : list ChildEvent) (chunk : string) :
  notified path args (events ++ [StderrData chunk])
  = notified path args events
    ++ removelast (splitLines (buffered path args events ++ chunk)) /\
  buffered path args (events ++ [StderrData chunk])
  = last (splitLines (buffered path args events ++ chunk)) "".
Proof.
  unfold notified, buffered. rewrite execute_snoc. cbn.
  now rewrite stderrLines_app, stderrLines_emit.
Qed.

(** A chunk without a terminator notifies nothing and is kept; the line
    is notified, with what was kept before it, when its LF arrives. *)
Theorem partial_line_is_held (resolvedFfmpegPath : string)
        (finalArgs : list string) (events : list ChildEvent)
        (text : string) :
  hasNewline text = false ->
  notified resolvedFfmpegPath finalArgs (events ++ [StderrData text])
  = notified resolvedFfmpegPath finalArgs events /\
  buffered resolvedFfmpegPath finalArgs (events ++ [StderrData text])
  = (buffered resolvedFfmpegPath finalArgs events ++ text)%string /\
  notified resolvedFfmpegPath finalArgs
           (events ++ [StderrData (text ++ String LF "")])
  = notified resolvedFfmpegPath finalArgs events
    ++ [(buffered resolvedFfmpegPath finalArgs events ++ text)%string] /\
  buffered resolvedFfmpegPath finalArgs
           (events ++ [StderrData (text ++ String LF "")]) = "".
Proof.
  intros Ht.
  pose proof (proj1 (run_clean resolvedFfmpegPath finalArgs events))
    as Hb.
  fold (buffered resolvedFfmpegPath finalArgs events) in Hb.
  assert (Hbt : hasNewline (buffered resolvedFfmpegPath finalArgs events
                            ++ text) = false)
    by (now rewrite hasNewline_app, Hb, Ht).
  destruct (notified_snoc resolvedFfmpegPath finalArgs events text)
    as [N1 B1].
  destruct (notified_snoc resolvedFfmpegPath finalArgs events
              (text ++ String LF "")) as [N2 B2].
  rewrite <- RunnerSpec.append_assoc in N2, B2.
  rewrite splitLines_plain in N1, B1 by exact Hbt.
  rewrite splitLines_lf in N2, B2 by exact Hbt.
  cbn in N1, B1, N2, B2. rewrite app_nil_r in N1.
  repeat split; assumption.
Qed.

Lemma partial_line_is_held_witness :
  notified "ffmpeg" [] [StderrData "frame=1 "; StderrData "time=00:00:01"]
  = [] /\
  notified "ffmpeg" []
           [StderrData "frame=1 ";
            StderrData ("time=00:00:01" ++ String LF "")]
  = ["frame=1 time=00:00:01"].
Proof.
  destruct (partial_line_is_held "ffmpeg" [] [StderrData "frame=1 "]
              "time=00:00:01" eq_refl) as (N1 & _ & N2 & _).
  split; [exact N1|exact N2].
Defined.

(** A CR LF that arrives in one chunk ends one line; when the CR ends a
    chunk and the LF begins the next, the handler notifies an empty line
    between the two. *)
Theorem crlf_across_chunks (resolvedFfmpegPath : string)
        (finalArgs : list string) (events : list ChildEvent)
        (first second : string) :
  hasNewline first = false ->
  hasNewline second = false ->
  let held := buffered resolvedFfmpegPath finalArgs events in
  notified resolvedFfmpegPath finalArgs
           (events ++ [StderrData (first ++ String CR (String LF second)
                                   ++ String LF "")])
  = notified resolvedFfmpegPath finalArgs events
    ++ [(held ++ first)%string; second] /\
  notified resolvedFfmpegPath finalArgs
           ((events ++ [StderrData (first ++ String CR "")])
              ++ [StderrData (String LF second ++ String LF "")])
  = notified resolvedFfmpegPath finalArgs events
    ++ [(held ++ first)%string; ""; second].
Proof.
  intros Hf Hs held.
  pose proof (proj1 (run_clean resolvedFfmpegPath finalArgs events))
    as Hb.
  fold (buffered resolvedFfmpegPath finalArgs events) in Hb. fold held in Hb.
  assert (Hhf : hasNewline (held ++ first) = false)
    by (now rewrite hasNewline_app, Hb, Hf).
  split.
  - destruct (notified_snoc resolvedFfmpegPath finalArgs events
                (first ++ String CR (String LF second) ++ String LF ""))
      as [N _].
    rewrite N. f_equal. fold held.
    change (first ++ String CR (String LF second) ++ String LF "")%string
      with (first ++ String CR (String LF (second ++ String LF "")))%string.
    rewrite <- RunnerSpec.append_assoc.
    rewrite splitLines_cr by exact Hhf. cbn -[splitLines].
    rewrite splitLines_lf by exact Hs. reflexivity.
  - destruct (notified_snoc resolvedFfmpegPath finalArgs events
                (first ++ String CR "")) as [N1 B1].
    destruct (notified_snoc resolvedFfmpegPath finalArgs
                (events ++ [StderrData (first ++ String CR "")])
                (String LF second ++ String LF "")) as [N2 _].
    fold held in N1, B1.
    rewrite <- RunnerSpec.append_assoc in N1, B1.
    rewrite splitLines_cr in N1, B1 by exact Hhf.
    cbn in N1, B1. rewrite N2, N1, B1. cbn -[splitLines].
    rewrite <- app_assoc. f_equal. cbn -[splitLines].
    assert (E : splitLines (String LF (second ++ String LF ""))
                = "" :: splitLines (second ++ String LF ""))
      by exact (splitLines_lf "" _ eq_refl).
    rewrite E, splitLines_lf by exact Hs. reflexivity.
Qed.

Lemma crlf_across_chunks_witness :
  notified "ffmpeg" []
           ([] ++ [StderrData ("a" ++ String CR (String LF "b")
                               ++ String LF "")])
  = ["a"; "b"] /\
  notified "ffmpeg" []
           (([] ++ [StderrData ("a" ++ String CR "")])
              ++ [StderrData (String LF "b" ++ String LF "")])
  = ["a"; ""; "b"].
Proof.
  exact (crlf_across_chunks "ffmpeg" [] [] "a" "b" eq_refl eq_refl).
Defined.

End LineSpec.

(** * Further properties: progress samples *)

Module ProgressSpec.

Import Runner.

Lemma split_nonempty (s : string) (c : ascii) :
  exists h t, split s c = h :: t.
Proof.
  induction s as [|d s (h & t & IH)]; cbn; [eauto|].
  destruct (Ascii.eqb d c); [eauto|]. rewrite IH. eauto.
Qed.

Lemma prefix_append (p s : string) :
  String.prefix p s = true -> exists r, s = (p ++ r)%string.
Proof.
  revert s. induction p as [|a p IH]; intros s H; [cbn; eauto|].
  destruct s as [|b s]; cbn in H; [discriminate|].
  destruct (ascii_dec a b) as [E|E]; [|discriminate].
  subst b. destruct (IH s H) as [r ->]. cbn. eauto.
Qed.

Lemma parseItem_raw (p : ProgressData) (item : string) :
  raw (parseItem p item) = raw p.
Proof.
  unfold parseItem.
  destruct (firstn 2 (split item "=")) as [|k [|v r]]; try reflexivity.
  destruct p as [fr fp qu sz tm br sp rw].
  repeat match goal with
         | |- context [if ?b then _ else _] => destruct b
         end; reflexivity.
Qed.

Lemma parseItem_frame (p : ProgressData) (item : string) :
  frame p <> None -> frame (parseItem p item) <> None.
Proof.
  unfold parseItem. intros H.
  destruct (firstn 2 (split item "=")) as [|k [|v r]]; try exact H.
  destruct p as [fr fp qu sz tm br sp rw].
  repeat match goal with
         | |- context [if ?b then _ else _] => destruct b
         end; cbn in *; try exact H; discriminate.
Qed.

Lemma fold_parseItem_raw (l : list string) :
  forall p, raw (fold_left parseItem l p) = raw p.
Proof.
  induction l as [|i l IH]; intros p; cbn; [reflexivity|].
  now rewrite IH, parseItem_raw.
Qed.

Lemma fold_parseItem_frame (l : list string) :
  forall p, frame p <> None -> frame (fold_left parseItem l p) <> None.
Proof.
  induction l as [|i l IH]; intros p H; cbn; [exact H|].
  apply IH, parseItem_frame, H.
Qed.

(** The first item of a line that begins with the prefix is the frame
    item. *)
Lemma items_frame_first (rest : string) :
  exists value more,
    items ("frame=" ++ rest) = ("frame=" ++ value)%string :: more /\
    exists tail, split ("frame=" ++ value) "=" = "frame" :: tail /\
                 tail <> [].
Proof.
  destruct (split_nonempty rest " ") as (h & t & Hs).
  exists h, (filter (fun item => includes item "=") t).
  split.
  - unfold items. cbn. rewrite Hs. cbn. reflexivity.
  - destruct (split_nonempty h "=") as (v & r & Hv).
    exists (split h "="). split.
    + cbn. reflexivity.
    + rewrite Hv. discriminate.
Qed.

(** Every sample [parseProgress] returns comes from a line with the
    prefix, keeps that line as [raw], has a non-empty [time] and has its
    [frame] field assigned (to a number or to NaN). *)
Theorem sample_wellformed (line : string) (p : ProgressData) :
  parseProgress line = Some p ->
  startsWith line "frame=" = true /\
  raw p = line /\
  (exists t, time p = Some t /\ t <> "") /\
  frame p <> None.
Proof.
  unfold parseProgress.
  destruct (startsWith line "frame=") eqn:Hpre; [|discriminate].
  cbn [negb].
  set (q := fold_left parseItem (items line)
                      (mkProgress None None None None None None None line)).
  destruct (truthy (time q)) eqn:Ht; [|discriminate].
  intros H. injection H as <-.
  split; [reflexivity|]. split; [apply fold_parseItem_raw|]. split.
  - destruct (time q) as [t|]; [|discriminate].
    exists t. split; [reflexivity|]. cbn in Ht.
    intros ->. discriminate.
  - unfold q. apply prefix_append in Hpre as [rest ->].
    destruct (items_frame_first rest) as (v & more & Hi & tail & Hs & Hne).
    rewrite Hi. cbn [fold_left]. apply fold_parseItem_frame.
    unfold parseItem. rewrite Hs.
    destruct tail as [|value tail]; [contradiction|].
    cbn. discriminate.
Qed.

Lemma sample_wellformed_witness :
  exists p, parseProgress Examples.sampleLine = Some p /\
            raw p = Examples.sampleLine /\ frame p <> None.
Proof.
  eexists. split; [reflexivity|].
  destruct (sample_wellformed Examples.sampleLine _ eq_refl)
    as (_ & Hr & _ & Hf).
  split; assumption.
Defined.

End ProgressSpec.

(** * Further properties: initialization *)

Module InitializeSpec.

Import Initialize Reports.

Lemma parseInt_integer (s : string) (a : Q) :
  parseInt s = Fin a -> exists z, a = inject_Z z.
Proof.
  unfold parseInt. destruct (takeSign (trimStart s)) as [negative r].
  destruct (takeDigits r 0 0) as [[v n] rest].
  destruct n; [discriminate|]. intros H. injection H as <-. eauto.
Qed.

Lemma floor_integer (x : number) (a : Q) :
  Numbers.floor x = Fin a -> exists z, a = inject_Z z.
Proof.
  destruct x; cbn; try discriminate. intros H. injection H as <-. eauto.
Qed.

(** A count that passes the check of [initialize] and is an integer when
    finite is a positive integer or positive infinity. *)
Lemma checked_count (x : number) :
  (forall a, x = Fin a -> exists z, a = inject_Z z) ->
  Numbers.isNaN x || Numbers.nonPositive x = false ->
  positiveCount x /\ Numbers.isZero x = false.
Proof.
  intros Hint Hc. apply orb_false_iff in Hc as [Hn Hp].
  destruct x as [|a|negative]; cbn in *; try discriminate.
  - destruct (Hint a eq_refl) as [z ->]. split.
    + exists z. split; [|reflexivity].
      destruct (Z_lt_le_dec 0 z) as [H|H]; [exact H|].
      assert (Qle_bool (inject_Z z) 0 = true); [|congruence].
      apply Qle_bool_iff. change 0%Q with (inject_Z 0).
      now rewrite <- Zle_Qle.
    + destruct (Qeq_bool (inject_Z z) 0) eqn:E; [|reflexivity].
      apply Qeq_bool_iff in E.
      assert (Qle_bool (inject_Z z) 0 = true); [|congruence].
      apply Qle_bool_iff. rewrite E. apply Qle_refl.
  - subst. split; reflexivity.
Qed.

Lemma counted_integer (info : FfprobeData) (stream : FfprobeStream)
      (rate : string) (x : number) :
  counted info stream rate = Some x ->
  forall a, x = Fin a -> exists z, a = inject_Z z.
Proof.
  unfold counted.
  destruct (truthy (nb_frames stream)
            && Numbers.positive (parseInt (pathOf (nb_frames stream)))).
  - intros H a ->. injection H as H. now apply parseInt_integer in H.
  - destruct (truthy (format_duration info)); [|discriminate].
    intros H a ->. injection H as H. now apply floor_integer in H.
Qed.

(** [initialize] by cases on what it reads. *)
Lemma initialize_cases (this : Fields) (info : FfprobeData) :
  initialize this (inr info)
  = match findVideo (streams info) with
    | None =>
        (mkFields (Some info) None (totalFrames this) (fps this)
                  (keyframeIntervalSeconds this), Some NoVideoStream)
    | Some stream =>
        match avg_frame_rate stream with
        | None =>
            (mkFields (Some info) (Some stream) (totalFrames this)
                      (fps this) (keyframeIntervalSeconds this),
             Some TypeError)
        | Some rate =>
            match counted info stream rate with
            | None =>
                (mkFields (Some info) (Some stream) (totalFrames this)
                          (parseFrameRate rate)
                          (keyframeIntervalSeconds this),
                 Some UnknownFrameCount)
            | Some count =>
                if Numbers.isNaN count || Numbers.nonPositive count
                then (mkFields (Some info) (Some stream) count
                               (parseFrameRate rate)
                               (keyframeIntervalSeconds this),
                      Some InvalidFrameCount)
                else
                  (mkFields (Some info) (Some stream) count
                            (parseFrameRate rate)
                            (if truthy (r_frame_rate stream)
                             then Numbers.max
                                    (Fin (inject_Z 2))
                                    (Numbers.div
                                       (Fin (inject_Z 250))
                                       (parseFrameRate
                                          (pathOf (r_frame_rate stream))))
                             else keyframeIntervalSeconds this),
                   None)
            end
        end
    end.
Proof.
  unfold initialize, counted. cbn [videoStream videoInfo totalFrames fps
                                    keyframeIntervalSeconds].
  destruct (findVideo (streams info)) as [stream|]; [|reflexivity].
  destruct (avg_frame_rate stream) as [rate|]; [|reflexivity].
  destruct (truthy (nb_frames stream)
            && Numbers.positive (parseInt (pathOf (nb_frames stream)))).
  - destruct (Numbers.isNaN _ || Numbers.nonPositive _); [reflexivity|].
    destruct (truthy (r_frame_rate stream)); reflexivity.
  - destruct (truthy (format_duration info)); [|reflexivity].
    destruct (Numbers.isNaN _ || Numbers.nonPositive _); [reflexivity|].
    destruct (truthy (r_frame_rate stream)); reflexivity.
Qed.

Lemma findVideo_some (l : list FfprobeStream) (stream : FfprobeStream) :
  findVideo l = Some stream -> In stream l /\ codec_type stream = "video".
Proof.
  unfold findVideo. intros H. apply find_some in H as [Hin Hc].
  split; [exact Hin|]. now apply String.eqb_eq.
Qed.

(** When [initialize] succeeds, the fields hold the report, its first
    video stream, and a total frame count that is a positive integer or
    positive infinity; [validateInitialized] then passes. *)
Theorem initialize_success (this this' : Fields) (info : FfprobeData) :
  initialize this (inr info) = (this', None) ->
  videoInfo this' = Some info /\
  (exists stream,
      videoStream this' = Some stream /\
      findVideo (streams info) = Some stream /\
      In stream (streams info) /\ codec_type stream = "video") /\
  positiveCount (totalFrames this') /\
  validateInitialized this' = true.
Proof.
  rewrite initialize_cases.
  destruct (findVideo (streams info)) as [stream|] eqn:Hs; [|discriminate].
  destruct (avg_frame_rate stream) as [rate|]; [|discriminate].
  destruct (counted info stream rate) as [count|] eqn:Hc; [|discriminate].
  destruct (Numbers.isNaN count || Numbers.nonPositive count) eqn:Hk;
    [discriminate|].
  intros H. injection H as <-.
  destruct (checked_count count (counted_integer _ _ _ _ Hc) Hk)
    as [Hpos Hz].
  split; [reflexivity|]. split.
  - exists stream. split; [reflexivity|]. split; [reflexivity|].
    now apply findVideo_some.
  - split; [exact Hpos|]. unfold validateInitialized. cbn. now rewrite Hz.
Qed.

Lemma initialize_success_witness :
  totalFrames (fst (initialize fresh (inr ntscReport)))
  = Fin (inject_Z 314) /\
  validateInitialized (fst (initialize fresh (inr ntscReport))) = true.
Proof.
  split; [reflexivity|].
  exact (proj2 (proj2 (proj2
           (initialize_success fresh
              (fst (initialize fresh (inr ntscReport))) ntscReport
              eq_refl)))).
Defined.

(** A positive [nb_frames] of the video stream is the total frame count,
    whatever the duration and the frame rate say. *)
Theorem frame_count_field_wins (this : Fields) (info : FfprobeData)
        (stream : FfprobeStream) (rate frames : string) (z : Z) :
  findVideo (streams info) = Some stream ->
  avg_frame_rate stream = Some rate ->
  nb_frames stream = Some frames ->
  parseInt frames = Fin (inject_Z z) ->
  (0 < z)%Z ->
  snd (initialize this (inr info)) = None /\
  totalFrames (fst (initialize this (inr info))) = Fin (inject_Z z).
Proof.
  intros Hs Hr Hn Hp Hz. rewrite initialize_cases, Hs, Hr.
  assert (Hframes : frames <> "").
  { intros ->. discriminate. }
  assert (Hc : counted info stream rate = Some (Fin (inject_Z z))).
  { unfold counted. rewrite Hn. cbn [truthy pathOf]. rewrite Hp.
    destruct (String.eqb_spec frames ""); [contradiction|].
    cbn. unfold Sampler.Qltb.
    destruct (Qle_bool (inject_Z z) 0) eqn:E; [|reflexivity].
    apply Qle_bool_iff in E. change 0%Q with (inject_Z 0) in E.
    rewrite <- Zle_Qle in E. lia. }
  rewrite Hc. cbn.
  destruct (Qle_bool (inject_Z z) 0) eqn:E.
  - apply Qle_bool_iff in E. change 0%Q with (inject_Z 0) in E.
    rewrite <- Zle_Qle in E. lia.
  - split; reflexivity.
Qed.

Lemma frame_count_field_wins_witness :
  totalFrames (fst (initialize fresh (inr countedReport)))
  = Fin (inject_Z 250).
Proof.
  refine (proj2 (frame_count_field_wins
                   fresh countedReport
                   countedStream "0/0" "250" 250 eq_refl eq_refl eq_refl eq_refl _)).
  reflexivity.
Defined.

(** [initialize] ends with the no-video-stream error exactly when no
    stream of the report has the codec type [video]. *)
Theorem no_video_stream_iff (this : Fields) (info : FfprobeData) :
  snd (initialize this (inr info)) = Some NoVideoStream <->
  (forall stream, In stream (streams info) -> codec_type stream <> "video").
Proof.
  rewrite initialize_cases.
  destruct (findVideo (streams info)) as [stream|] eqn:Hs.
  - split.
    + destruct (avg_frame_rate stream) as [rate|]; [|discriminate].
      destruct (counted info stream rate) as [count|]; [|discriminate].
      destruct (Numbers.isNaN count || Numbers.nonPositive count);
        discriminate.
    + intros H. apply findVideo_some in Hs as [Hin Hc].
      contradiction (H stream Hin Hc).
  - split; [|reflexivity]. intros _ stream Hin Hc.
    unfold findVideo in Hs.
    apply (find_none _ _ Hs) in Hin. apply String.eqb_neq in Hin.
    contradiction.
Qed.

Lemma no_video_stream_iff_witness :
  snd (initialize fresh (inr audioReport)) = Some NoVideoStream.
Proof.
  apply (proj2 (no_video_stream_iff fresh audioReport)).
  intros stream [<- | []]. discriminate.
Defined.

(** When [initialize] succeeds, the keyframe estimate is left as it was
    if the stream has no [r_frame_rate], and is [max(2, 250 / rate)], at
    least 2, if that field parses to a positive finite rate. *)
Theorem keyframe_estimate (this this' : Fields) (info : FfprobeData)
        (stream : FfprobeStream) :
  initialize this (inr info) = (this', None) ->
  findVideo (streams info) = Some stream ->
  (truthy (r_frame_rate stream) = false ->
   keyframeIntervalSeconds this' = keyframeIntervalSeconds this) /\
  (forall text rate,
      r_frame_rate stream = Some text -> text <> "" ->
      parseFrameRate text = Fin rate -> (0 < rate)%Q ->
      keyframeIntervalSeconds this'
      = Fin (Qmax (inject_Z 2) (Qred (inject_Z 250 / rate))) /\
      (2 <= Qmax (inject_Z 2) (Qred (inject_Z 250 / rate)))%Q).
Proof.
  rewrite initialize_cases. intros H Hs. rewrite Hs in H.
  destruct (avg_frame_rate stream) as [avg|]; [|discriminate].
  destruct (counted info stream avg) as [count|]; [|discriminate].
  destruct (Numbers.isNaN count || Numbers.nonPositive count);
    [discriminate|].
  injection H as <-. cbn [keyframeIntervalSeconds]. split.
  - intros ->. reflexivity.
  - intros text rate Hr Hne Hp Hpos. rewrite Hr. cbn [truthy pathOf].
    destruct (String.eqb_spec text ""); [contradiction|]. cbn [negb].
    rewrite Hp. cbn.
    destruct (Qeq_bool rate 0) eqn:E.
    + apply Qeq_bool_iff in E. rewrite E in Hpos.
      now apply Qlt_irrefl in Hpos.
    + split; [reflexivity|]. apply Q.le_max_l.
Qed.

Lemma keyframe_estimate_witness :
  keyframeIntervalSeconds (fst (initialize fresh (inr palReport)))
  = Fin (Qmax (inject_Z 2) (Qred (inject_Z 250 / 25))).
Proof.
  refine (proj1 (proj2 (keyframe_estimate
                          fresh (fst (initialize fresh (inr palReport)))
                          palReport
                          palStream eq_refl eq_refl)
                       "25/1" 25%Q eq_refl _ eq_refl _)).
  - discriminate.
  - reflexivity.
Defined.

(** An [initialize] that throws on the frame-count check has already
    stored the count: unless the count is exactly 0, the fields it leaves
    pass [validateInitialized]. *)
Theorem failed_count_check_passes_validation
        (this this' : Fields) (info : FfprobeData) :
  initialize this (inr info) = (this', Some InvalidFrameCount) ->
  Numbers.isZero (totalFrames this') = false ->
  validateInitialized this' = true.
Proof.
  rewrite initialize_cases.
  destruct (findVideo (streams info)) as [stream|]; [|discriminate].
  destruct (avg_frame_rate stream) as [rate|]; [|discriminate].
  destruct (counted info stream rate) as [count|]; [|discriminate].
  destruct (Numbers.isNaN count || Numbers.nonPositive count);
    [|discriminate].
  intros H. injection H as <-. cbn [totalFrames]. intros Hz.
  unfold validateInitialized. cbn. now rewrite Hz.
Qed.

Lemma failed_count_check_passes_validation_witness :
  snd (initialize fresh (inr stillReport)) = Some InvalidFrameCount /\
  totalFrames (fst (initialize fresh (inr stillReport))) = NaN /\
  validateInitialized (fst (initialize fresh (inr stillReport))) = true.
Proof.
  split; [reflexivity|]. split; [reflexivity|].
  exact (failed_count_check_passes_validation
           fresh (fst (initialize fresh (inr stillReport))) stillReport
           eq_refl eq_refl).
Defined.

End InitializeSpec.

(** * Further properties: batches *)

Module BatchSpec.

Import Command Runner Sampler SamplerSpec.
Local Open Scope Q_scope.






(** A request with neither a count nor a rate (each absent or 0) selects
    no frame: an initialized extractor answers it with the empty list,
    whatever the fuel, the host and the order. *)
Theorem empty_request_resolves_empty
        (fuel : nat) (this : VideoFrameExtractor)
        (count rate : option Q) (resolvedFfmpegPath : string)
        (host : Host) (order : list nat) :
  validateInitialized this = true ->
  truthyNum count = false ->
  truthyNum rate = false ->
  calculateFrameIndices fuel this (ExtractFramesOptions.make count rate)
  = Some [] /\
  extract fuel this (ExtractFramesOptions.make count rate)
          resolvedFfmpegPath host order
  = Some (inr []).
Proof.
  intros Hi Hc Hr.
  assert (E : calculateFrameIndices
                fuel this (ExtractFramesOptions.make count rate) = Some []).
  { unfold calculateFrameIndices. cbn. now rewrite Hc, Hr. }
  split; [exact E|]. unfold extract. now rewrite Hi, E.
Qed.

Lemma empty_request_resolves_empty_witness :
  extract 0 Examples.tenFrames (ExtractFramesOptions.make (Some 0) None)
          "ffmpeg" Examples.flakyHost []
  = Some (inr []).
Proof.
  exact (proj2 (empty_request_resolves_empty
                  0 Examples.tenFrames (Some 0) None "ffmpeg"
                  Examples.flakyHost [] eq_refl eq_refl eq_refl)).
Defined.

(** A negative count selects no frame, and a rate given with it is not
    looked at. *)
Theorem negative_count_selects_nothing
        (fuel : nat) (this : VideoFrameExtractor) (n : Q)
        (rate : option Q) :
  n < 0 ->
  calculateFrameIndices (S fuel) this
                        (ExtractFramesOptions.make (Some n) rate)
  = Some [].
Proof.
  intros Hn. unfold calculateFrameIndices.
  cbn [ExtractFramesOptions.totalFrames ExtractFramesOptions.fps numOf].
  assert (Ht : truthyNum (Some n) = true).
  { cbn. destruct (Qeq_bool n 0) eqn:E; [|reflexivity].
    apply Qeq_bool_iff in E. rewrite E in Hn.
    now apply Qlt_irrefl in Hn. }
  rewrite Ht. cbn [forLoop].
  assert (Hc : Qltb (inject_Z 0)
                    (Qmin n (inject_Z (totalFrames this))) = false).
  { apply Qltb_ge. eapply Qle_trans; [apply Q.le_min_l|].
    now apply Qlt_le_weak. }
  rewrite Hc. reflexivity.
Qed.

Lemma negative_count_selects_nothing_witness :
  calculateFrameIndices 1 Examples.tenFrames
                        (ExtractFramesOptions.make (Some (-3)) (Some 5))
  = Some [].
Proof.
  apply (negative_count_selects_nothing 0). reflexivity.
Defined.




End BatchSpec.

(** * Further properties: sampling by rate *)

Module RateSpec.

Import Command Runner Sampler SamplerSpec.
Local Open Scope Q_scope.








End RateSpec.

(** * Further properties: the probe *)

Module ProbeSpec.

Import Probe.

Section WithJson.

Variable Data : Type.
Variable jsonParse : string -> string + Data.

Lemma handle_text (data : list ProbeEvent) :
  Forall isText data ->
  forall s,
    settled Data (fold_left (handle Data jsonParse) data s) = settled Data s /\
    stdout Data (fold_left (handle Data jsonParse) data s)
    = (stdout Data s ++ outOf data)%string /\
    stderr Data (fold_left (handle Data jsonParse) data s)
    = (stderr Data s ++ errOf data)%string.
Proof.
  induction 1 as [|ev data Hev _ IH]; intros s; cbn.
  - now rewrite !RunnerSpec.append_nil_r.
  - destruct (IH (handle Data jsonParse s ev)) as (Hs & Ho & He).
    rewrite Hs, Ho, He.
    destruct ev as [chunk|chunk|code|err]; cbn in *; try contradiction;
      rewrite ?RunnerSpec.append_assoc; auto.
Qed.

Lemma settled_stays (events : list ProbeEvent) :
  forall s v,
    settled Data s = Some v ->
    settled Data (fold_left (handle Data jsonParse) events s) = Some v.
Proof.
  induction events as [|ev events IH]; intros s v Hs; cbn; [exact Hs|].
  apply IH. destruct s as [o e p]. cbn in Hs. subst p.
  destruct ev as [chunk|chunk|[[| |]|]|err]; cbn; try reflexivity.
  destruct (jsonParse o); reflexivity.
Qed.

(** For a probing child that writes and then closes: with exit code 0
    the outcome is that of parsing all of its stdout, a parse failure
    being reported with the parser's text and the stdout; with any other
    code the probe is rejected with a message that gives the code and all
    of its stderr; what follows the close changes nothing. *)
Theorem probe_outcome (data later : list ProbeEvent) (code : option Z) :
  Forall isText data ->
  (code = Some 0%Z ->
   probe Data jsonParse (data ++ Exit code :: later)
   = Some match jsonParse (outOf data) with
          | inr report => inr report
          | inl e =>
              inl ("Failed to parse ffprobe JSON output: " ++ e
                     ++ newline ++ outOf data)%string
          end) /\
  (code <> Some 0%Z ->
   probe Data jsonParse (data ++ Exit code :: later)
   = Some (inl ("ffprobe exited with code " ++ codeText code
                  ++ newline ++ errOf data)%string)).
Proof.
  intros Hd. unfold probe. rewrite fold_left_app. cbn [fold_left].
  destruct (handle_text data Hd (mkProbeState Data "" "" None))
    as (Hs & Ho & He).
  cbn in Hs, Ho, He. split.
  - intros ->. apply settled_stays. cbn. rewrite Ho, Hs.
    destruct (jsonParse (outOf data)); reflexivity.
  - intros Hc. apply settled_stays.
    destruct code as [[| |]|]; cbn; rewrite ?He, ?Hs; try reflexivity.
    contradiction Hc. reflexivity.
Qed.

End WithJson.

Lemma probe_outcome_witness :
  probe nat Reports.toyParse [OutText "{"; ErrText "warn"; OutText "}";
                              Exit (Some 0%Z)]
  = Some (inr 0%nat) /\
  probe nat Reports.toyParse ([ErrText "in.mp4: "; ErrText "not found"]
                                ++ Exit (Some 1%Z) :: [])
  = Some (inl ("ffprobe exited with code 1" ++ newline
                 ++ "in.mp4: not found")%string).
Proof.
  split.
  - exact (proj1 (probe_outcome nat Reports.toyParse
                    [OutText "{"; ErrText "warn"; OutText "}"] []
                    (Some 0%Z) ltac:(repeat constructor)) eq_refl).
  - refine (proj2 (probe_outcome nat Reports.toyParse
                     [ErrText "in.mp4: "; ErrText "not found"] []
                     (Some 1%Z) ltac:(repeat constructor)) _).
    discriminate.
Defined.

End ProbeSpec.
